(** * EnhancedPerformanceMonitor (performanceMonitor.ts)

    A shallow embedding of the telemetry collector of the repository:
    the metric store with its cleanup on overflow ([logRender]), the
    memory sampler (the [setInterval] callback of
    [startMemoryMonitoring]), the insight engine ([getInsights]), [clear]
    and the exporter ([exportMetrics]).

    Conventions of the embedding.
    - A JavaScript [number] that carries a duration or an average is a
      rational ([Q]): arithmetic is exact, there is no NaN and no
      rounding. Timestamps ([Date.now()]) are integers ([Z]); heap sizes
      ([usedJSHeapSize]) are byte counts ([N]); array lengths and counters
      are [nat].
    - What the code reads from its environment ([Date.now()],
      [performance.memory], [new Error().stack]) is an explicit argument.
    - The monitor object is a record that every method takes and returns.
    - [console.warn] output is not part of the state. The sampler returns
      the one flag that decides its warning; the development-mode logging
      at the end of [logRender] only reads the state and is left out.
    - [JSON.stringify] and [JSON.parse] are modelled on strings of bytes,
      with the layout of an indentation of 2; how a number is printed is
      left to the language ([numberToString]).

    Names.  The definitions carry the names of the code.  The
    specification calls a [PerformanceMetrics] a sample and the component
    of a render its subject, and it writes [record] for [logRender],
    [query] for [getMetrics], [computeInsights] for [getInsights],
    [exportSnapshot] for [exportMetrics], [samples] for [metrics],
    [anomalousSamples] for [slowRenders], [averageDuration] for
    [averageRenderTime], [totalSamples] for [totalRenders], [hotspots] for
    [componentHotspots], [maxCapacity] for [maxMetrics] and
    [anomalyThreshold] for [slowRenderThreshold]. *)

From Stdlib Require Import String Ascii.
From Stdlib Require Import List Bool Arith ZArith NArith QArith Qround.
From Stdlib Require Import Lia Permutation Sorted.
Import ListNotations.

Local Open Scope nat_scope.

(** ** Arrays *)

Section Arrays.
Context {A : Type}.

(** [arr.slice(-n)] for a positive [n]: the last [n] elements, the whole
    array when it is shorter. *)
Definition sliceLast (n : nat) (l : list A) : list A :=
  skipn (length l - n) l.

(** [arr.slice(-a, -b)] for positive [a] and [b]: from [a] before the
    end up to [b] before the end. *)
Definition sliceBetween (a b : nat) (l : list A) : list A :=
  firstn ((length l - b) - (length l - a)) (skipn (length l - a) l).

(** [arr.sort(cmp)].  The comparator returns a number; an element is
    moved behind another one only when the comparator is positive, so
    elements that compare equal keep their order (the sort of the
    language is stable). *)
Variable cmp : A -> A -> Q.

Fixpoint insertSorted (x : A) (l : list A) : list A :=
  match l with
  | [] => [x]
  | y :: r =>
      if Qle_bool (cmp x y) 0%Q then x :: y :: r
      else y :: insertSorted x r
  end.

Fixpoint sort (l : list A) : list A :=
  match l with
  | [] => []
  | x :: r => insertSorted x (sort r)
  end.
End Arrays.

(** ** Data model *)

(** [interface PerformanceMetrics].  The session id of a sample is
    [m_sessionId], as the monitor has a field [sessionId] of its own. *)
Record PerformanceMetrics : Type := mkMetric {
  renderTime : Q;
  componentName : string;
  propsHash : string;
  timestamp : Z;
  m_sessionId : string;
  memoryUsage : option N;
  callStack : option string;
  isSlowRender : bool
}.

(** An entry of [memoryHistory]: [{ timestamp, usage }]. *)
Record MemoryReading : Type := mkReading {
  r_timestamp : Z;
  usage : N
}.

(** The private fields of [EnhancedPerformanceMonitor]. *)
Record Monitor : Type := mkMonitor {
  metrics : list PerformanceMetrics;
  sessionId : string;
  memoryBaseline : option N;
  memoryHistory : list MemoryReading
}.

Definition maxMetrics : nat := 500.
Definition slowRenderThreshold : Q := 16%Q.

(** The state after the constructor, for a generated session id. *)
Definition newMonitor (sid : string) : Monitor :=
  {| metrics := []; sessionId := sid;
     memoryBaseline := None; memoryHistory := [] |}.

(** ** The metric store *)

(** [Math.floor(this.maxMetrics * 0.7)]. *)
Definition recentCount : nat :=
  Z.to_nat (Qfloor (inject_Z (Z.of_nat maxMetrics) * (7 # 10))%Q).

(** The comparator [(a, b) => a.timestamp - b.timestamp]. *)
Definition byTimestamp (a b : PerformanceMetrics) : Q :=
  inject_Z (timestamp a - timestamp b).

(** The cleanup of [logRender], on the array after the push. *)
Definition cleanup (ms : list PerformanceMetrics) : list PerformanceMetrics :=
  let slowRenders := filter isSlowRender ms in
  let recentMetrics := sliceLast recentCount ms in
  sliceLast maxMetrics (sort byTimestamp (slowRenders ++ recentMetrics)).

(** What one call of [logRender] reads: its three arguments and the
    environment ([Date.now()], [getCurrentMemoryUsage()], [getCallStack()]). *)
Record Call : Type := mkCall {
  c_componentName : string;
  c_renderTime : Q;
  c_propsHash : string;
  c_now : Z;
  c_memory : option N;
  c_stack : string
}.

Definition Qgt_bool (a b : Q) : bool := negb (Qle_bool a b).

Definition newMetric (sid : string) (c : Call) : PerformanceMetrics :=
  let slow := Qgt_bool (c_renderTime c) slowRenderThreshold in
  {| renderTime := c_renderTime c;
     componentName := c_componentName c;
     propsHash := c_propsHash c;
     timestamp := c_now c;
     m_sessionId := sid;
     memoryUsage := c_memory c;
     callStack := if slow then Some (c_stack c) else None;
     isSlowRender := slow |}.

Definition setMetrics (st : Monitor) (ms : list PerformanceMetrics) : Monitor :=
  {| metrics := ms; sessionId := sessionId st;
     memoryBaseline := memoryBaseline st;
     memoryHistory := memoryHistory st |}.

Definition logRender (st : Monitor) (c : Call) : Monitor :=
  let pushed := metrics st ++ [newMetric (sessionId st) c] in
  if maxMetrics <? length pushed
  then setMetrics st (cleanup pushed)
  else setMetrics st pushed.

(** The states after each call of a sequence of [logRender] calls. *)
Fixpoint logRenders (st : Monitor) (cs : list Call) : list Monitor :=
  match cs with
  | [] => []
  | c :: r => let st' := logRender st c in st' :: logRenders st' r
  end.

(** [getMetrics()] and [getComponentMetrics(name)]. *)
Definition getMetrics (st : Monitor) : list PerformanceMetrics := metrics st.

Definition getComponentMetrics (st : Monitor) (name : string)
  : list PerformanceMetrics :=
  filter (fun m => String.eqb (componentName m) name) (metrics st).

(** ** The memory sampler *)

(** [!this.memoryBaseline]: [undefined] and the number 0 are both falsy. *)
Definition baselineMissing (b : option N) : bool :=
  match b with
  | None => true
  | Some u => N.eqb u 0
  end.

(** One run of the [setInterval] callback of [startMemoryMonitoring], for
    the reading [usage] taken at [now].  The flag returned with the state is
    the condition of the spike warning, [usage > this.memoryBaseline * 2]. *)
Definition memoryTick (st : Monitor) (now : Z) (u : N) : Monitor * bool :=
  let baseline :=
    if baselineMissing (memoryBaseline st) then Some u else memoryBaseline st in
  let pushed := memoryHistory st ++ [{| r_timestamp := now; usage := u |}] in
  let history := if 50 <? length pushed then sliceLast 50 pushed else pushed in
  let spike :=
    match baseline with
    | Some b => N.ltb (b * 2) u
    | None => false
    end in
  ({| metrics := metrics st; sessionId := sessionId st;
      memoryBaseline := baseline; memoryHistory := history |}, spike).

(** The state after a sequence of ticks, each a pair (time, usage). *)
Definition memoryTicks (st : Monitor) (ts : list (Z * N)) : Monitor :=
  fold_left (fun s t => fst (memoryTick s (fst t) (snd t))) ts st.

(** ** The insight engine *)

Inductive Trend : Type := stable | increasing | decreasing.

Record Hotspot : Type := mkHotspot {
  component : string;
  averageTime : Q;
  count : nat
}.

Record PerformanceInsights : Type := mkInsights {
  slowRenders : list PerformanceMetrics;
  averageRenderTime : Q;
  totalRenders : nat;
  memoryTrend : Trend;
  componentHotspots : list Hotspot;
  recommendations : list string
}.

Definition ofNat (n : nat) : Q := inject_Z (Z.of_nat n).
Definition ofN (n : N) : Q := inject_Z (Z.of_N n).

(** *** The accumulator object of [componentStats]

    [componentStats] is an ordinary object used as a map from component
    names to [{ total, count }].  Its own properties are kept in the order
    of their creation.  Two features of ordinary objects show in the code:
    - a read [acc[name]] that finds no own property continues on
      [Object.prototype];
    - [Object.entries] lists the own properties whose names are array
      indices first, in ascending numeric order, and the others after them
      in the order of their creation. *)

Record Stats : Type := mkStats {
  total : Q;
  s_count : nat
}.

Definition StatsObject : Type := list (string * Stats).

(** The property names that every ordinary object inherits. *)
Definition objectPrototypeKeys : list string :=
  [ "constructor"; "__defineGetter__"; "__defineSetter__"; "hasOwnProperty";
    "__lookupGetter__"; "__lookupSetter__"; "isPrototypeOf";
    "propertyIsEnumerable"; "toString"; "valueOf"; "__proto__";
    "toLocaleString" ]%string.

Definition inherited (name : string) : bool :=
  existsb (String.eqb name) objectPrototypeKeys.

Fixpoint getOwn (acc : StatsObject) (name : string) : option Stats :=
  match acc with
  | [] => None
  | (k, v) :: r => if String.eqb k name then Some v else getOwn r name
  end.

(** Assignment to an own property: in place when it exists, appended as
    the newest property otherwise. *)
Fixpoint setOwn (acc : StatsObject) (name : string) (v : Stats) : StatsObject :=
  match acc with
  | [] => [(name, v)]
  | (k, w) :: r =>
      if String.eqb k name then (k, v) :: r else (k, w) :: setOwn r name v
  end.

(** The value of a decimal digit, [None] for any other character. *)
Definition digitValue (c : ascii) : option N :=
  let n := N_of_ascii c in
  if (48 <=? n)%N && (n <=? 57)%N then Some (n - 48)%N else None.

Fixpoint digitsValue (s : string) (acc : N) : option N :=
  match s with
  | EmptyString => Some acc
  | String c r =>
      match digitValue c with
      | Some d => digitsValue r (acc * 10 + d)%N
      | None => None
      end
  end.

(** A property name is an array index when it is the canonical decimal
    form of an integer below 2^32 - 1: digits only, no leading zero except
    in ["0"] itself. *)
Definition arrayIndex (name : string) : option N :=
  match name with
  | EmptyString => None
  | String c r =>
      if Ascii.eqb c "0" && negb (String.eqb r EmptyString) then None
      else match digitsValue name 0 with
           | Some v => if (v <? 4294967295)%N then Some v else None
           | None => None
           end
  end.

Definition isArrayIndex (name : string) : bool :=
  match arrayIndex name with Some _ => true | None => false end.

Definition indexOf (name : string) : N :=
  match arrayIndex name with Some v => v | None => 0%N end.

Definition byIndex (a b : string * Stats) : Q :=
  (ofN (indexOf (fst a)) - ofN (indexOf (fst b)))%Q.

(** [Object.entries(acc)]. *)
Definition entries (acc : StatsObject) : list (string * Stats) :=
  sort byIndex (filter (fun e => isArrayIndex (fst e)) acc)
  ++ filter (fun e => negb (isArrayIndex (fst e))) acc.

(** The reducer of [componentStats].  When [acc[name]] is an inherited
    member it is truthy, no own property is created, and the two updates
    are made on that member: the own properties stay as they are. *)
Definition addRender (acc : StatsObject) (metric : PerformanceMetrics)
  : StatsObject :=
  let name := componentName metric in
  match getOwn acc name with
  | Some s =>
      setOwn acc name
        {| total := (total s + renderTime metric)%Q; s_count := s_count s + 1 |}
  | None =>
      if inherited name then acc
      else setOwn acc name
             {| total := (0 + renderTime metric)%Q; s_count := 0 + 1 |}
  end.

Definition componentStats (ms : list PerformanceMetrics) : StatsObject :=
  fold_left addRender ms [].

Definition toHotspot (e : string * Stats) : Hotspot :=
  {| component := fst e;
     averageTime := (total (snd e) / ofNat (s_count (snd e)))%Q;
     count := s_count (snd e) |}.

(** The comparator [(a, b) => b.averageTime - a.averageTime]. *)
Definition byAverageDesc (a b : Hotspot) : Q :=
  (averageTime b - averageTime a)%Q.

Definition hotspotsOf (ms : list PerformanceMetrics) : list Hotspot :=
  firstn 5 (sort byAverageDesc (map toHotspot (entries (componentStats ms)))).

(** *** Averages and the memory trend *)

Definition sumRenderTime (ms : list PerformanceMetrics) : Q :=
  fold_left (fun sum m => (sum + renderTime m)%Q) ms 0%Q.

Definition sumUsage (rs : list MemoryReading) : Q :=
  fold_left (fun sum m => (sum + ofN (usage m))%Q) rs 0%Q.

Definition trendOf (history : list MemoryReading) : Trend :=
  if 10 <=? length history then
    let recent := sliceLast 5 history in
    let older := sliceBetween 10 5 history in
    let recentAvg := (sumUsage recent / ofNat (length recent))%Q in
    let olderAvg := (sumUsage older / ofNat (length older))%Q in
    if Qgt_bool recentAvg (olderAvg * (11 # 10))%Q then increasing
    else if Qgt_bool (olderAvg * (9 # 10))%Q recentAvg then decreasing
    else stable
  else stable.

(** *** Recommendations *)

Definition memoMessage : string :=
  "Consider optimizing components with React.memo() or useMemo()".
Definition focusMessage (name : string) : string :=
  ("Focus optimization on " ++ name ++ " component")%string.
Definition leakMessage : string :=
  "Memory usage is increasing - check for memory leaks".
Definition overallMessage : string :=
  "Overall render performance could be improved".

(** [recommendations.push(msg)] when [cond] holds. *)
Definition pushWhen (cond : bool) (msg : string) (recs : list string)
  : list string :=
  if cond then recs ++ [msg] else recs.

Definition Trend_eqb (a b : Trend) : bool :=
  match a, b with
  | stable, stable | increasing, increasing | decreasing, decreasing => true
  | _, _ => false
  end.

Definition recommend (slow totalN : nat) (hotspots : list Hotspot)
    (trend : Trend) (average : Q) : list string :=
  let recs := [] in
  let recs := pushWhen (Qgt_bool (ofNat slow) (ofNat totalN * (1 # 10))%Q)
                memoMessage recs in
  let recs :=
    match hotspots with
    | top :: _ =>
        pushWhen (Qgt_bool (averageTime top) 20%Q)
          (focusMessage (component top)) recs
    | [] => recs
    end in
  let recs := pushWhen (Trend_eqb trend increasing) leakMessage recs in
  let recs := pushWhen (Qgt_bool average 10%Q) overallMessage recs in
  recs.

Definition getInsights (st : Monitor) : PerformanceInsights :=
  let slow := filter isSlowRender (metrics st) in
  let totalN := length (metrics st) in
  let average :=
    if 0 <? totalN then (sumRenderTime (metrics st) / ofNat totalN)%Q
    else 0%Q in
  let hotspots := hotspotsOf (metrics st) in
  let trend := trendOf (memoryHistory st) in
  {| slowRenders := slow;
     averageRenderTime := average;
     totalRenders := totalN;
     memoryTrend := trend;
     componentHotspots := hotspots;
     recommendations := recommend (length slow) totalN hotspots trend average |}.

(** ** Maintenance *)

Definition clear (st : Monitor) : Monitor :=
  {| metrics := []; sessionId := sessionId st;
     memoryBaseline := None; memoryHistory := [] |}.

(** [optimizeMemory()], run at time [now]. *)
Definition optimizeMemory (st : Monitor) (now : Z) : Monitor :=
  let criticalMetrics :=
    filter (fun m => isSlowRender m || (now - timestamp m <? 300000)%Z)
           (metrics st) in
  {| metrics := sliceLast 200 criticalMetrics; sessionId := sessionId st;
     memoryBaseline := memoryBaseline st;
     memoryHistory := sliceLast 20 (memoryHistory st) |}.

(** ** JSON texts *)

#[local] Set Warnings "-register-all".

(** A JSON document.  A number is kept as its literal. *)
Inductive json : Type :=
| JNull
| JBool (b : bool)
| JNumber (literal : string)
| JString (s : string)
| JArray (items : list json)
| JObject (members : list (string * json)).

Definition text : Type := list ascii.

Definition chars (s : string) : text := list_ascii_of_string s.

Definition quoteChar : ascii := ascii_of_nat 34.
Definition newline : ascii := ascii_of_nat 10.

Definition hexDigit (n : nat) : ascii :=
  nth n (chars "0123456789abcdef") "0"%char.

(** [QuoteJSONString], character by character. *)
Definition escapeChar (c : ascii) : text :=
  let n := nat_of_ascii c in
  if Ascii.eqb c quoteChar then ["\"%char; quoteChar]
  else if Ascii.eqb c "\" then ["\"%char; "\"%char]
  else if n =? 8 then ["\"%char; "b"%char]
  else if n =? 12 then ["\"%char; "f"%char]
  else if n =? 10 then ["\"%char; "n"%char]
  else if n =? 13 then ["\"%char; "r"%char]
  else if n =? 9 then ["\"%char; "t"%char]
  else if n <? 32
       then ["\"%char; "u"%char; "0"%char; "0"%char;
             hexDigit (n / 16); hexDigit (n mod 16)]
  else [c].

Fixpoint escape (s : string) : text :=
  match s with
  | EmptyString => []
  | String c r => escapeChar c ++ escape r
  end.

Definition quote (s : string) : text := quoteChar :: escape s ++ [quoteChar].

Definition spaces (n : nat) : text := repeat " "%char n.

Definition separated (ind : nat) (t : text) : text :=
  ","%char :: newline :: spaces ind ++ t.

(** The layout of an array and of an object whose parts are printed. *)
Definition printArray (ind : nat) (items : list text) : text :=
  match items with
  | [] => chars "[]"
  | t :: ts =>
      "["%char :: newline :: spaces (ind + 2) ++ t
      ++ concat (map (separated (ind + 2)) ts)
      ++ newline :: spaces ind ++ ["]"%char]
  end.

Definition printMember (m : string * text) : text :=
  quote (fst m) ++ ":"%char :: " "%char :: snd m.

Definition printObject (ind : nat) (members : list (string * text)) : text :=
  match members with
  | [] => chars "{}"
  | m :: ms =>
      "{"%char :: newline :: spaces (ind + 2) ++ printMember m
      ++ concat (map (fun m' => separated (ind + 2) (printMember m')) ms)
      ++ newline :: spaces ind ++ ["}"%char]
  end.

(** [JSON.JSON_stringify(value, null, 2)] on a document, at the indentation
    [ind]. *)
Fixpoint printValue (ind : nat) (j : json) : text :=
  match j with
  | JNull => chars "null"
  | JBool b => if b then chars "true" else chars "false"
  | JNumber literal => chars literal
  | JString s => quote s
  | JArray items => printArray ind (map (printValue (ind + 2)) items)
  | JObject members =>
      printObject ind
        (map (fun m => match m with (k, v) => (k, printValue (ind + 2) v) end)
             members)
  end.

Definition JSON_stringify (j : json) : string :=
  string_of_list_ascii (printValue 0 j).

(** *** Reading a text *)

Definition isWhitespace (c : ascii) : bool :=
  let n := nat_of_ascii c in
  (n =? 32) || (n =? 9) || (n =? 10) || (n =? 13).

Fixpoint skipWhitespace (s : text) : text :=
  match s with
  | c :: r => if isWhitespace c then skipWhitespace r else s
  | [] => []
  end.

Definition isDigit (c : ascii) : bool :=
  let n := nat_of_ascii c in (48 <=? n) && (n <=? 57).

Definition numberStart (c : ascii) : bool := isDigit c || Ascii.eqb c "-".

Definition numberChar (c : ascii) : bool :=
  isDigit c || Ascii.eqb c "-" || Ascii.eqb c "+" || Ascii.eqb c "."
  || Ascii.eqb c "e" || Ascii.eqb c "E".

(** The characters of a number literal: a digit or a sign first, then
    digits, signs, the point and the exponent mark. *)
Definition isNumberLiteral (literal : string) : bool :=
  match chars literal with
  | c :: r => numberStart c && forallb numberChar r
  | [] => false
  end.

Fixpoint takeNumber (s : text) : text * text :=
  match s with
  | c :: r =>
      if numberChar c
      then let (lit, rest) := takeNumber r in (c :: lit, rest)
      else ([], s)
  | [] => ([], [])
  end.

Definition hexValue (c : ascii) : option nat :=
  let n := nat_of_ascii c in
  if (48 <=? n) && (n <=? 57) then Some (n - 48)
  else if (97 <=? n) && (n <=? 102) then Some (n - 87)
  else if (65 <=? n) && (n <=? 70) then Some (n - 55)
  else None.

(** The character that a two-character escape stands for. *)
Definition unescape (c : ascii) : option ascii :=
  if Ascii.eqb c quoteChar then Some quoteChar
  else if Ascii.eqb c "\" then Some "\"%char
  else if Ascii.eqb c "/" then Some "/"%char
  else if Ascii.eqb c "b" then Some (ascii_of_nat 8)
  else if Ascii.eqb c "f" then Some (ascii_of_nat 12)
  else if Ascii.eqb c "n" then Some (ascii_of_nat 10)
  else if Ascii.eqb c "r" then Some (ascii_of_nat 13)
  else if Ascii.eqb c "t" then Some (ascii_of_nat 9)
  else None.

Definition consChar (c : ascii) (p : option (string * text))
  : option (string * text) :=
  match p with
  | Some (str, rest) => Some (String c str, rest)
  | None => None
  end.

(** A string, read from behind its opening quote.  Strings are sequences
    of bytes here: an escape [\uXXXX] above 255 is not read. *)
Fixpoint parseString (s : text) : option (string * text) :=
  match s with
  | [] => None
  | c :: r =>
      if Ascii.eqb c quoteChar then Some (EmptyString, r)
      else if Ascii.eqb c "\" then
        match r with
        | "u"%char :: h1 :: h2 :: h3 :: h4 :: r' =>
            match hexValue h1, hexValue h2, hexValue h3, hexValue h4 with
            | Some a, Some b, Some c', Some d =>
                let code := ((a * 16 + b) * 16 + c') * 16 + d in
                if code <? 256
                then consChar (ascii_of_nat code) (parseString r')
                else None
            | _, _, _, _ => None
            end
        | e :: r' =>
            match unescape e with
            | Some c' => consChar c' (parseString r')
            | None => None
            end
        | [] => None
        end
      else if nat_of_ascii c <? 32 then None
      else consChar c (parseString r)
  end.

Definition parseKeyword (s : text) : option (json * text) :=
  match s with
  | "n"%char :: "u"%char :: "l"%char :: "l"%char :: rest => Some (JNull, rest)
  | "t"%char :: "r"%char :: "u"%char :: "e"%char :: rest =>
      Some (JBool true, rest)
  | "f"%char :: "a"%char :: "l"%char :: "s"%char :: "e"%char :: rest =>
      Some (JBool false, rest)
  | _ => None
  end.

(** A value, the items of an array behind its bracket, and the members of
    an object behind its brace.  [fuel] bounds the nesting and the number
    of parts. *)
Fixpoint parseValue (fuel : nat) (s : text) {struct fuel}
  : option (json * text) :=
  match fuel with
  | 0 => None
  | S f =>
      match skipWhitespace s with
      | [] => None
      | c :: r =>
          if Ascii.eqb c quoteChar then
            match parseString r with
            | Some (str, rest) => Some (JString str, rest)
            | None => None
            end
          else if Ascii.eqb c "[" then
            match skipWhitespace r with
            | "]"%char :: rest => Some (JArray [], rest)
            | _ =>
                match parseItems f r with
                | Some (items, rest) => Some (JArray items, rest)
                | None => None
                end
            end
          else if Ascii.eqb c "{" then
            match skipWhitespace r with
            | "}"%char :: rest => Some (JObject [], rest)
            | _ =>
                match parseMembers f r with
                | Some (members, rest) => Some (JObject members, rest)
                | None => None
                end
            end
          else if numberStart c then
            let (lit, rest) := takeNumber (c :: r) in
            Some (JNumber (string_of_list_ascii lit), rest)
          else parseKeyword (c :: r)
      end
  end
with parseItems (fuel : nat) (s : text) {struct fuel}
  : option (list json * text) :=
  match fuel with
  | 0 => None
  | S f =>
      match parseValue f s with
      | Some (v, r) =>
          match skipWhitespace r with
          | ","%char :: r' =>
              match parseItems f r' with
              | Some (vs, rest) => Some (v :: vs, rest)
              | None => None
              end
          | "]"%char :: rest => Some ([v], rest)
          | _ => None
          end
      | None => None
      end
  end
with parseMembers (fuel : nat) (s : text) {struct fuel}
  : option (list (string * json) * text) :=
  match fuel with
  | 0 => None
  | S f =>
      match skipWhitespace s with
      | c :: r =>
          if Ascii.eqb c quoteChar then
            match parseString r with
            | Some (key, r1) =>
                match skipWhitespace r1 with
                | ":"%char :: r2 =>
                    match parseValue f r2 with
                    | Some (v, r3) =>
                        match skipWhitespace r3 with
                        | ","%char :: r4 =>
                            match parseMembers f r4 with
                            | Some (ms, rest) => Some ((key, v) :: ms, rest)
                            | None => None
                            end
                        | "}"%char :: rest => Some ([(key, v)], rest)
                        | _ => None
                        end
                    | None => None
                    end
                | _ => None
                end
            | None => None
            end
          else None
      | [] => None
      end
  end.

(** [JSON.JSON_parse(text)]: one value, and nothing but white space behind it. *)
Definition JSON_parse (t : string) : option json :=
  let s := chars t in
  match parseValue (length s) s with
  | Some (v, rest) =>
      match skipWhitespace rest with
      | [] => Some v
      | _ :: _ => None
      end
  | None => None
  end.

(** The value of the property [name] of a document: of its last member of
    that name when it is an object. *)
Definition property (name : string) (j : json) : option json :=
  match j with
  | JObject members =>
      match find (fun m => String.eqb (fst m) name) (rev members) with
      | Some m => Some (snd m)
      | None => None
      end
  | _ => None
  end.

Definition propertyNames (j : json) : list string :=
  match j with
  | JObject members => map fst members
  | _ => []
  end.


(** The documents whose number literals are number literals. *)
Fixpoint wellFormed (j : json) : bool :=
  match j with
  | JNumber literal => isNumberLiteral literal
  | JArray items => forallb wellFormed items
  | JObject members =>
      forallb (fun m => match m with (_, v) => wellFormed v end) members
  | _ => true
  end.

(** The fuel that reading a document takes. *)
Fixpoint jsonSize (j : json) : nat :=
  match j with
  | JArray items => S (fold_right (fun x n => S (jsonSize x + n)) 0 items)
  | JObject members =>
      S (fold_right (fun m n => match m with (_, v) => S (jsonSize v + n) end)
           0 members)
  | _ => 0
  end.

(** A text behind a value ends the value: it does not go on as a number. *)
Definition stops (rest : text) : Prop :=
  match rest with
  | c :: _ => numberChar c = false
  | [] => True
  end.

Definition valueStart (c : ascii) : bool :=
  negb (isWhitespace c) && negb (Ascii.eqb c "]") && negb (Ascii.eqb c "}").

(** Reading back what was printed, for one document. *)
Definition readsBack (j : json) : Prop :=
  wellFormed j = true ->
  forall (fuel ind : nat) (rest : text),
    jsonSize j < fuel -> stops rest ->
    parseValue fuel (printValue ind j ++ rest) = Some (j, rest).

Definition sizeItems (items : list json) : nat :=
  fold_right (fun x n => S (jsonSize x + n)) 0 items.

Definition sizeMembers (members : list (string * json)) : nat :=
  fold_right (fun m n => match m with (_, v) => S (jsonSize v + n) end) 0 members.

Definition printedMember (k : nat) (m : string * json) : string * text :=
  match m with (key, v) => (key, printValue k v) end.

(** The fuel that [JSON_parse] takes from the length of the text is enough. *)
Definition fitsText (j : json) : Prop :=
  wellFormed j = true -> forall ind : nat, jsonSize j < length (printValue ind j).

(** ** The exporter *)

Section Exporter.
(** [Number::toString] of the language, for the numbers of the state. *)
Variable numberToString : Q -> string.

Definition jsonNumber (q : Q) : json := JNumber (numberToString q).

(** A property whose value may be [undefined]: [JSON.stringify] leaves
    such a property out. *)
Definition optional {A : Type} (name : string) (f : A -> json)
    (v : option A) : list (string * json) :=
  match v with
  | Some x => [(name, f x)]
  | None => []
  end.

Definition metricJSON (m : PerformanceMetrics) : json :=
  JObject
    ([("renderTime", jsonNumber (renderTime m));
      ("componentName", JString (componentName m));
      ("propsHash", JString (propsHash m));
      ("timestamp", jsonNumber (inject_Z (timestamp m)));
      ("sessionId", JString (m_sessionId m))]%string
     ++ optional "memoryUsage"%string (fun u => jsonNumber (ofN u))
          (memoryUsage m)
     ++ optional "callStack"%string JString (callStack m)
     ++ [("isSlowRender"%string, JBool (isSlowRender m))]).

Definition readingJSON (r : MemoryReading) : json :=
  JObject [("timestamp", jsonNumber (inject_Z (r_timestamp r)));
           ("usage", jsonNumber (ofN (usage r)))]%string.

Definition hotspotJSON (h : Hotspot) : json :=
  JObject [("component", JString (component h));
           ("averageTime", jsonNumber (averageTime h));
           ("count", jsonNumber (ofNat (count h)))]%string.

Definition trendName (t : Trend) : string :=
  match t with
  | stable => "stable"
  | increasing => "increasing"
  | decreasing => "decreasing"
  end.

Definition insightsJSON (i : PerformanceInsights) : json :=
  JObject [("slowRenders", JArray (map metricJSON (slowRenders i)));
           ("averageRenderTime", jsonNumber (averageRenderTime i));
           ("totalRenders", jsonNumber (ofNat (totalRenders i)));
           ("memoryTrend", JString (trendName (memoryTrend i)));
           ("componentHotspots", JArray (map hotspotJSON (componentHotspots i)));
           ("recommendations", JArray (map JString (recommendations i)))]%string.

(** The object [data] of [exportMetrics], as [JSON.stringify] walks it;
    [exportTime] is [new Date().toISOString()]. *)
Definition exportData (st : Monitor) (exportTime : string) : json :=
  JObject [("metrics", JArray (map metricJSON (metrics st)));
           ("insights", insightsJSON (getInsights st));
           ("memoryHistory", JArray (map readingJSON (memoryHistory st)));
           ("sessionId", JString (sessionId st));
           ("exportTime", JString exportTime)]%string.

Definition exportMetrics (st : Monitor) (exportTime : string) : string :=
  JSON_stringify (exportData st exportTime).
End Exporter.

(** ** Further code of the monitor *)

(** *** The call stack *)

(** [s.split('\n')]. *)
Fixpoint splitLines (s : string) : list string :=
  match s with
  | EmptyString => [EmptyString]
  | String c r =>
      if Ascii.eqb c newline then EmptyString :: splitLines r
      else match splitLines r with
           | line :: lines => String c line :: lines
           | [] => [String c EmptyString]
           end
  end.

(** [lines.join('\n')]. *)
Fixpoint joinLines (lines : list string) : string :=
  match lines with
  | [] => EmptyString
  | [line] => line
  | line :: rest => (line ++ String newline (joinLines rest))%string
  end.

(** [arr.slice(a, b)] for [a <= b]. *)
Definition slice {A : Type} (a b : nat) (l : list A) : list A :=
  firstn (b - a) (skipn a l).

(** [getCallStack()], where [stack] is [new Error().stack]: [undefined] and
    the empty string are both falsy. *)
Definition getCallStack (stack : option string) : string :=
  match stack with
  | None => EmptyString
  | Some EmptyString => EmptyString
  | Some s => joinLines (slice 4 8 (splitLines s))
  end.

(** *** The warnings of the development mode *)

(** The condition of the regression warning of [logRender], on the monitor
    after the push and the cleanup. *)
Definition regressionWarning (st : Monitor) (c : Call) : bool :=
  let recentSameComponent :=
    sliceLast 5
      (filter (fun m => String.eqb (componentName m) (c_componentName c))
              (metrics st)) in
  if 3 <=? length recentSameComponent then
    let avgRecent :=
      (sumRenderTime recentSameComponent
       / ofNat (length recentSameComponent))%Q in
    Qgt_bool avgRecent slowRenderThreshold
    && Qgt_bool (c_renderTime c) (avgRecent * (3 # 2))%Q
  else false.

(** [logRender] in development mode: the monitor, and whether it warns of
    a slow render and of a regression. *)
Definition logRenderDev (st : Monitor) (c : Call) : Monitor * (bool * bool) :=
  let st' := logRender st c in
  (st', (Qgt_bool (c_renderTime c) slowRenderThreshold,
         regressionWarning st' c)).

(** *** The life of a monitor *)

(** What happens to a monitor: a render is logged, the memory sampler
    ticks, the monitor is cleared or its memory is optimized. *)
Inductive Operation : Type :=
| Log (c : Call)
| Tick (now : Z) (u : N)
| Clear
| Optimize (now : Z).

Definition perform (st : Monitor) (op : Operation) : Monitor :=
  match op with
  | Log c => logRender st c
  | Tick now u => fst (memoryTick st now u)
  | Clear => clear st
  | Optimize now => optimizeMemory st now
  end.

Definition run (ops : list Operation) (st : Monitor) : Monitor :=
  fold_left perform ops st.

(** *** The dashboard *)

(** The variant of the badge that the dashboard shows for a hotspot:
    [hotspot.averageTime > 16 ? 'destructive' : 'default']. *)
Inductive BadgeVariant : Type := badgeDestructive | badgeDefault.

Definition hotspotBadge (h : Hotspot) : BadgeVariant :=
  if Qgt_bool (averageTime h) 16 then badgeDestructive else badgeDefault.

(** ** Reference notions

    The notions the properties below are stated with, written from their
    usual definitions and independent of the code above. *)

(** The arithmetic mean: the sum of the values over their number. *)
Definition arithmeticMean (xs : list Q) : Q :=
  (fold_right Qplus 0 xs / ofNat (length xs))%Q.

Definition usageOf (r : MemoryReading) : Q := ofN (usage r).

(** The five most recent readings of a history, and the five before them,
    both in the order of the history. *)
Definition recentReadings (h : list MemoryReading) : list MemoryReading :=
  rev (firstn 5 (rev h)).

Definition precedingReadings (h : list MemoryReading) : list MemoryReading :=
  rev (firstn 5 (skipn 5 (rev h))).

(** The eviction policy in the words of the specification.  A sample is
    identified by its position in the store, so that two samples with the
    same content remain two samples: the union of the slow samples and of
    the [recentCount] most recent ones by timestamp, without duplicates,
    sorted by timestamp, cut to the [maxMetrics] most recent. *)
Definition Sample : Type := (nat * PerformanceMetrics)%type.

Definition sampleByTimestamp (a b : Sample) : Q := byTimestamp (snd a) (snd b).

Fixpoint distinct (l : list Sample) : list Sample :=
  match l with
  | [] => []
  | x :: r => x :: filter (fun y => negb (fst y =? fst x)) (distinct r)
  end.

Definition evictionPolicy (store : list PerformanceMetrics)
  : list PerformanceMetrics :=
  let samples := combine (seq 0 (length store)) store in
  let anomalous := filter (fun s => isSlowRender (snd s)) samples in
  let recent := sliceLast recentCount (sort sampleByTimestamp samples) in
  map snd
    (sliceLast maxMetrics (sort sampleByTimestamp (distinct (anomalous ++ recent)))).

(** [x] is not more recent than [y]. *)
Definition olderOrEqual (x y : PerformanceMetrics) : Prop :=
  (timestamp x <= timestamp y)%Z.

(** The samples of a subject, the subjects of a store in the order of
    their first occurrence, and the mean duration of a subject. *)
Definition group (ms : list PerformanceMetrics) (s : string)
  : list PerformanceMetrics :=
  filter (fun m => String.eqb (componentName m) s) ms.

Fixpoint subjects (ms : list PerformanceMetrics) : list string :=
  match ms with
  | [] => []
  | m :: r =>
      componentName m
      :: filter (fun s => negb (String.eqb s (componentName m))) (subjects r)
  end.

Definition groupAverage (ms : list PerformanceMetrics) (s : string) : Q :=
  arithmeticMean (map renderTime (group ms s)).



(** The own property [e] of the accumulator sums up the samples of [s]. *)
Definition summarises (ms : list PerformanceMetrics) (s : string)
    (e : string * Stats) : Prop :=
  fst e = s /\
  (total (snd e) == fold_right Qplus 0 (map renderTime (group ms s)))%Q /\
  s_count (snd e) = length (group ms s).

(** The hotspot [h] is the summary of the subject [s]: its name, the mean
    duration of its samples and their number. *)
Definition summary (ms : list PerformanceMetrics) (s : string) (h : Hotspot)
  : Prop :=
  component h = s /\
  (averageTime h == groupAverage ms s)%Q /\
  count h = length (group ms s).

(** The contribution of one rule to the recommendations: its message
    when it fires, nothing otherwise. *)
Definition rule (fires : bool) (msg : string) : list string :=
  if fires then [msg] else [].

(** *** Notions of the further properties *)

(** Every stored sample is at most as recent as the time [now]. *)
Definition notAfter (now : Z) (ms : list PerformanceMetrics) : Prop :=
  Forall (fun m => (timestamp m <= now)%Z) ms.

(** [m] is at least as recent as the time [t]. *)
Definition since (t : Z) (m : PerformanceMetrics) : bool :=
  (t <=? timestamp m)%Z.

(** A sample as [logRender] of the session [sid] labels it: slow exactly
    when its render time exceeds the threshold, with a call stack exactly
    when it is slow, and with the session id [sid]. *)
Definition labelled (sid : string) (m : PerformanceMetrics) : Prop :=
  isSlowRender m = Qgt_bool (renderTime m) slowRenderThreshold /\
  (callStack m = None <-> isSlowRender m = false) /\
  m_sessionId m = sid.

(** The reading that a tick (time, usage) adds to the history. *)
Definition readingOf (t : Z * N) : MemoryReading :=
  {| r_timestamp := fst t; usage := snd t |}.

(** The usage never grows, and never shrinks, from a reading to a later
    one. *)
Definition neverGrows (a b : MemoryReading) : Prop := (usage b <= usage a)%N.
Definition neverShrinks (a b : MemoryReading) : Prop := (usage a <= usage b)%N.

(** The names of the subjects that get a group: those that objects do not
    inherit. *)
Definition ownSubjects (ms : list PerformanceMetrics) : list string :=
  filter (fun s => negb (inherited s)) (subjects ms).

(** The test of [optimizeMemory]: a slow render, or one of the last five
    minutes before [now]. *)
Definition critical (now : Z) (m : PerformanceMetrics) : bool :=
  isSlowRender m || (now - timestamp m <? 300000)%Z.

(** The number of line breaks of a string. *)
Definition newlines (s : string) : nat :=
  length (filter (Ascii.eqb newline) (list_ascii_of_string s)).

(** ** Sample states *)

(** The monitor after the readings [us], taken every 10 seconds. *)
Definition sampled (st : Monitor) (us : list N) : Monitor :=
  memoryTicks st
    (combine (map (fun i => (10000 * Z.of_nat i)%Z) (seq 1 (length us))) us).

(** [n] renders of the component [name], each of [t] milliseconds, logged
    one millisecond apart from the time [from] on. *)
Definition renders (name : string) (t : Q) (from : Z) (n : nat) : list Call :=
  map (fun i => {| c_componentName := name; c_renderTime := t;
                   c_propsHash := "{}"; c_now := (from + Z.of_nat i)%Z;
                   c_memory := None; c_stack := "at render" |})
      (seq 0 n).

(** 100 samples, 15 of them slow: 15 renders of X of 25 ms, then 80 renders
    of Y of 10 ms and 5 of 5 ms (1200 ms in all, 12 ms on average), with a
    memory history that went from 100 to 200 bytes. *)
Definition busyMonitor : Monitor :=
  sampled
    (fold_left logRender
       (renders "X" 25 1000 15 ++ renders "Y" 10 2000 80 ++ renders "Y" 5 3000 5)
       (newMonitor "perf_1_a"))
    [100; 100; 100; 100; 100; 200; 200; 200; 200; 200]%N.

(** [n] renders of the component [name], each of [t] milliseconds, all
    logged within the millisecond [at]; the heap grows by one byte from one
    render to the next, starting at [heap]. *)
Definition burst (name : string) (t : Q) (at_ : Z) (heap : N) (n : nat)
  : list Call :=
  map (fun i => {| c_componentName := name; c_renderTime := t;
                   c_propsHash := "{}"; c_now := at_;
                   c_memory := Some (heap + N.of_nat i)%N;
                   c_stack := "at render" |})
      (seq 0 n).

(** A full store of 500 fast renders with the timestamps 1 to 500, and a
    slow render logged next. *)
Definition fullStore : Monitor :=
  fold_left logRender (renders "Row" 1 1 500) (newMonitor "perf_1_a").

Definition slowCall : Call :=
  {| c_componentName := "Chart"; c_renderTime := 20; c_propsHash := "{}";
     c_now := 501; c_memory := None; c_stack := "at render" |}.

(** A full store of 151 slow renders followed by 349 fast ones, all logged
    within the same millisecond, and a fast render logged next in that
    millisecond. *)
Definition tiedStore : Monitor :=
  fold_left logRender
    (burst "Chart" 20 1000 0 151 ++ burst "Row" 1 1000 151 349)
    (newMonitor "perf_1_a").

Definition tiedCall : Call :=
  {| c_componentName := "Row"; c_renderTime := 1; c_propsHash := "{}";
     c_now := 1000; c_memory := Some 500%N; c_stack := "at render" |}.

(** A full store of 151 slow renders with the timestamps 1 to 151 followed
    by 349 fast ones with the timestamps 152 to 500. *)
Definition mixedStore : Monitor :=
  fold_left logRender
    (renders "Chart" 20 1 151 ++ renders "Row" 1 152 349)
    (newMonitor "perf_1_a").

(** A full store in which every slow render and every recent render fit
    together: 10 slow renders (timestamps 1 to 10), 141 fast ones (11 to
    151), 200 slow ones (152 to 351) and 149 fast ones (352 to 500); a fast
    render is logged next. *)
Definition crowdedStore : Monitor :=
  fold_left logRender
    (renders "Chart" 20 1 10 ++ renders "Row" 1 11 141
     ++ renders "Chart" 20 152 200 ++ renders "Row" 1 352 149)
    (newMonitor "perf_1_a").

Definition fastCall : Call :=
  {| c_componentName := "Row"; c_renderTime := 1; c_propsHash := "{}";
     c_now := 501; c_memory := None; c_stack := "at render" |}.

(** Three subjects: A twice at 30 ms, then C once at 25 ms, then B ten
    times at 25 ms. *)
Definition rankedStore : Monitor :=
  fold_left logRender
    (renders "A" 30 1 2 ++ renders "C" 25 3 1 ++ renders "B" 25 4 10)
    (newMonitor "perf_1_a").


(** Two subjects, the first of them named as the property [constructor]
    that every object inherits. *)
Definition inheritedStore : Monitor :=
  fold_left logRender
    (renders "constructor" 30 1 1 ++ renders "B" 25 2 1)
    (newMonitor "perf_1_a").

(** A number printer for the examples: the decimal form of the integer
    part of a number. *)
Fixpoint digitsOf (fuel : nat) (n : N) (acc : text) : text :=
  match fuel with
  | 0 => acc
  | S f =>
      let acc' := ascii_of_N (48 + n mod 10) :: acc in
      if (n / 10 =? 0)%N then acc' else digitsOf f (n / 10) acc'
  end.

Definition integerLiteral (q : Q) : string :=
  let z := Qfloor q in
  let digits := digitsOf (S (N.to_nat (N.log2 (Z.abs_N z)))) (Z.abs_N z) [] in
  string_of_list_ascii (if (z <? 0)%Z then "-"%char :: digits else digits).

(** Three fast renders of 12 ms. *)
Definition calmStore : Monitor :=
  fold_left logRender (renders "Row" 12 1 3) (newMonitor "perf_1_a").

(** Two renders of Chart of 20 ms, and a third one of 100 ms logged next. *)
Definition steadyStore : Monitor :=
  fold_left logRender (renders "Chart" 20 1 2) (newMonitor "perf_1_a").

Definition spikeCall : Call :=
  {| c_componentName := "Chart"; c_renderTime := 100; c_propsHash := "{}";
     c_now := 3; c_memory := None; c_stack := "at render" |}.

(** A stack of six lines. *)
Definition sixLines : string :=
  joinLines ["Error"; "at a"; "at b"; "at c"; "at d"; "at e"]%string.

(** * Properties *)

Section ArrayFacts.
Context {A : Type}.

Lemma sliceLast_length (n : nat) (l : list A) :
  length (sliceLast n l) = Nat.min n (length l).
Proof. unfold sliceLast. rewrite length_skipn. lia. Qed.

Lemma sliceLast_le (n : nat) (l : list A) : length (sliceLast n l) <= n.
Proof. rewrite sliceLast_length. lia. Qed.
End ArrayFacts.

Lemma recentCount_value : recentCount = 350.
Proof. reflexivity. Qed.

Lemma logRender_bounded (st : Monitor) (c : Call) :
  length (metrics (logRender st c)) <= maxMetrics.
Proof.
  unfold logRender.
  destruct (maxMetrics <? length (metrics st ++ [newMetric (sessionId st) c])) eqn:E.
  - simpl. unfold cleanup. apply sliceLast_le.
  - apply Nat.ltb_ge in E. simpl. exact E.
Qed.

(** C1 (capacity invariant).  For every sequence of [logRender] calls
    starting from the empty store of a new monitor, the store holds at most
    [maxMetrics] = 500 samples after each call of the sequence. *)
Theorem capacity_invariant (sid : string) (cs : list Call) :
  Forall (fun st => length (metrics st) <= 500) (logRenders (newMonitor sid) cs).
Proof.
  generalize (newMonitor sid) as st.
  induction cs as [|c r IH]; intros st; simpl.
  - constructor.
  - constructor.
    + apply (logRender_bounded st c).
    + apply IH.
Qed.

(** ** The sort *)

Section SortFacts.
Context {A : Type}.
Variable cmp : A -> A -> Q.

Lemma insertSorted_perm (x : A) (l : list A) :
  Permutation (x :: l) (insertSorted cmp x l).
Proof.
  induction l as [|y r IH]; simpl.
  - apply Permutation_refl.
  - destruct (Qle_bool (cmp x y) 0).
    + apply Permutation_refl.
    + apply perm_trans with (y :: x :: r).
      * apply perm_swap.
      * apply perm_skip. exact IH.
Qed.

Lemma sort_perm (l : list A) : Permutation l (sort cmp l).
Proof.
  induction l as [|x r IH]; simpl.
  - apply perm_nil.
  - apply perm_trans with (x :: sort cmp r).
    + apply perm_skip. exact IH.
    + apply insertSorted_perm.
Qed.

Lemma sort_In (l : list A) (x : A) : In x (sort cmp l) <-> In x l.
Proof.
  split; apply Permutation_in.
  - apply Permutation_sym, sort_perm.
  - apply sort_perm.
Qed.

Lemma sort_length (l : list A) : length (sort cmp l) = length l.
Proof. symmetry. apply Permutation_length, sort_perm. Qed.

(** Sortedness, for a comparator that decides a total preorder. *)
Section Sorted.
Variable le : A -> A -> Prop.
Hypothesis le_trans : forall x y z, le x y -> le y z -> le x z.
Hypothesis cmp_le : forall x y, Qle_bool (cmp x y) 0 = true -> le x y.
Hypothesis cmp_gt : forall x y, Qle_bool (cmp x y) 0 = false -> le y x.

Lemma insertSorted_sorted (x : A) (l : list A) :
  StronglySorted le l -> StronglySorted le (insertSorted cmp x l).
Proof.
  induction 1 as [|y r Hr IH Hy]; simpl.
  - constructor; constructor.
  - destruct (Qle_bool (cmp x y) 0) eqn:E.
    + constructor.
      * constructor; assumption.
      * constructor.
        -- apply cmp_le, E.
        -- apply Forall_impl with (P := le y); [|exact Hy].
           intros z Hz. apply le_trans with y; [|exact Hz].
           apply cmp_le, E.
    + constructor; [exact IH|].
      apply Forall_forall. intros z Hz.
      apply (Permutation_in _ (Permutation_sym (insertSorted_perm x r))) in Hz.
      destruct Hz as [<-|Hz].
      * apply cmp_gt, E.
      * rewrite Forall_forall in Hy. apply Hy, Hz.
Qed.

Lemma sort_sorted (l : list A) : StronglySorted le (sort cmp l).
Proof.
  induction l as [|x r IH]; simpl.
  - constructor.
  - apply insertSorted_sorted, IH.
Qed.
End Sorted.

(** Stability: the elements of a class whose members compare equal keep
    their order. *)
Section Stable.
Variable p : A -> bool.
Hypothesis p_class :
  forall x y, p x = true -> p y = true -> Qle_bool (cmp x y) 0 = true.


End Stable.
End SortFacts.

(** In a sorted array, what lies in front of a suffix is below it. *)
Lemma sorted_app {A : Type} (le : A -> A -> Prop) (l1 l2 : list A) :
  StronglySorted le (l1 ++ l2) ->
  forall x y, In x l1 -> In y l2 -> le x y.
Proof.
  induction l1 as [|z r IH]; intros H x y Hx Hy; [contradiction|].
  simpl in H. inversion H as [|? ? Hs Hall]; subst.
  destruct Hx as [<-|Hx].
  - rewrite Forall_forall in Hall. apply Hall, in_or_app. now right.
  - apply IH; assumption.
Qed.

Lemma byTimestamp_le (x y : PerformanceMetrics) :
  Qle_bool (byTimestamp x y) 0 = true -> (timestamp x <= timestamp y)%Z.
Proof.
  intros H. apply Qle_bool_iff in H.
  unfold byTimestamp, Qle in H. simpl in H. lia.
Qed.

Lemma byTimestamp_gt (x y : PerformanceMetrics) :
  Qle_bool (byTimestamp x y) 0 = false -> (timestamp y <= timestamp x)%Z.
Proof.
  intros H. destruct (Z.le_gt_cases (timestamp y) (timestamp x)) as [L|G];
    [exact L|].
  assert (E : Qle_bool (byTimestamp x y) 0 = true).
  { apply Qle_bool_iff. unfold byTimestamp, Qle. simpl. lia. }
  congruence.
Qed.

Lemma sort_byTimestamp_sorted (l : list PerformanceMetrics) :
  StronglySorted olderOrEqual (sort byTimestamp l).
Proof.
  apply sort_sorted.
  - unfold olderOrEqual. intros x y z. lia.
  - exact byTimestamp_le.
  - exact byTimestamp_gt.
Qed.

(** ** The cleanup of the store *)

Lemma logRender_cleanup (st : Monitor) (c : Call) :
  maxMetrics < length (metrics st ++ [newMetric (sessionId st) c]) ->
  metrics (logRender st c)
  = cleanup (metrics st ++ [newMetric (sessionId st) c]).
Proof.
  intros H. unfold logRender. apply Nat.ltb_lt in H. rewrite H. reflexivity.
Qed.

(** A slow render is in the array that the cleanup sorts. *)
Lemma cleanup_keeps_newer (ms : list PerformanceMetrics)
    (a n : PerformanceMetrics) :
  In a ms -> isSlowRender a = true ->
  In n (cleanup ms) -> (timestamp n < timestamp a)%Z ->
  In a (cleanup ms).
Proof.
  intros Ha Hslow Hn Hlt. unfold cleanup in *.
  set (sorted := sort byTimestamp
                   (filter isSlowRender ms ++ sliceLast recentCount ms)) in *.
  assert (Hin : In a sorted).
  { apply sort_In, in_or_app. left. apply filter_In. now split. }
  unfold sliceLast in *.
  set (k := length sorted - maxMetrics) in *.
  rewrite <- (firstn_skipn k sorted) in Hin.
  apply in_app_or in Hin. destruct Hin as [Hfront|Hback]; [|exact Hback].
  exfalso.
  assert (Hle : olderOrEqual a n).
  { apply (sorted_app olderOrEqual (firstn k sorted) (skipn k sorted)).
    - rewrite firstn_skipn. apply sort_byTimestamp_sorted.
    - exact Hfront.
    - exact Hn. }
  unfold olderOrEqual in Hle. lia.
Qed.

(** C2 (eviction policy), at the input on which the code departs from it.
    [fullStore] holds 500 fast renders; [slowCall] pushes a slow one and
    triggers the cleanup.  The new sample is both a slow render and one of
    the 350 most recent: the code keeps it twice, so the store ends with 351
    entries, the result of the specified policy followed by a second copy of
    the new sample. *)
Theorem cleanup_duplicates_slow_render :
  let pushed := metrics fullStore ++ [newMetric (sessionId fullStore) slowCall] in
  let post := metrics (logRender fullStore slowCall) in
  let newest := newMetric "perf_1_a" slowCall in
  length pushed = 501 /\
  length (evictionPolicy pushed) = 350 /\
  length post = 351 /\
  sliceLast 2 post = [newest; newest] /\
  post = evictionPolicy pushed ++ [newest].
Proof.
  cbv zeta.
  split; [vm_compute; reflexivity|].
  split; [vm_compute; reflexivity|].
  split; [vm_compute; reflexivity|].
  split; vm_compute; reflexivity.
Qed.

(** The copies take the place of samples.  In [crowdedStore] followed by
    [fastCall] the 210 slow renders and the 350 most recent renders are 360
    samples in all, which fit in the store; the code sorts 560 entries and
    cuts 60, and with them every slow render older than the timestamp 177:
    the store keeps 175 slow renders, each of them twice. *)
Lemma cleanup_drops_slow_renders_that_fit :
  let pushed :=
    metrics crowdedStore ++ [newMetric (sessionId crowdedStore) fastCall] in
  let post := metrics (logRender crowdedStore fastCall) in
  length (filter isSlowRender pushed) = 210 /\
  length (evictionPolicy pushed) = 360 /\
  length post = 500 /\
  length (filter isSlowRender post) = 350 /\
  map timestamp (firstn 4 post) = [177; 177; 178; 178]%Z.
Proof.
  cbv zeta.
  split; [vm_compute; reflexivity|].
  split; [vm_compute; reflexivity|].
  split; [vm_compute; reflexivity|].
  split; vm_compute; reflexivity.
Qed.

(** C3 (anomaly retention priority), as amended.  When a call of
    [logRender] triggers the cleanup on a store with more slow renders than
    0.3 x [maxMetrics], a slow render is never discarded while a render
    that is not slow and has a strictly older timestamp is kept. *)
Theorem anomaly_retention (st : Monitor) (c : Call)
    (a n : PerformanceMetrics) :
  let pushed := metrics st ++ [newMetric (sessionId st) c] in
  maxMetrics < length pushed ->
  (ofNat maxMetrics * (3 # 10) < ofNat (length (filter isSlowRender pushed)))%Q ->
  In a pushed -> isSlowRender a = true ->
  isSlowRender n = false -> (timestamp n < timestamp a)%Z ->
  In n (metrics (logRender st c)) ->
  In a (metrics (logRender st c)).
Proof.
  intros pushed Hfull _ Ha Hslow _ Hlt Hn.
  rewrite (logRender_cleanup st c Hfull) in *.
  now apply cleanup_keeps_newer with n.
Qed.

(** An instance of C3: in [mixedStore] followed by [slowCall] there are 152
    slow renders; the fast render of timestamp 152 is kept, and so is the
    slow one of timestamp 501. *)
Lemma anomaly_retention_witness :
  In (newMetric "perf_1_a" slowCall) (metrics (logRender mixedStore slowCall)).
Proof.
  apply (anomaly_retention mixedStore slowCall (newMetric "perf_1_a" slowCall)
           {| renderTime := 1; componentName := "Row"; propsHash := "{}";
              timestamp := 152; m_sessionId := "perf_1_a";
              memoryUsage := None; callStack := None;
              isSlowRender := false |}).
  - vm_compute. lia.
  - vm_compute. reflexivity.
  - apply (nth_error_In _ 500). vm_compute. reflexivity.
  - reflexivity.
  - reflexivity.
  - vm_compute. reflexivity.
  - apply (nth_error_In _ 149). vm_compute. reflexivity.
Defined.

(** C3 as stated fails on a tie.  In [tiedStore] followed by [tiedCall]
    all 501 samples carry the timestamp 1000 and 151 of them are slow; the
    cleanup discards the first slow render (heap 0) and keeps every fast
    one, [tiedCall]'s among them, whose timestamp is equal. *)
Lemma anomaly_dropped_on_tie :
  let pushed := metrics tiedStore ++ [newMetric (sessionId tiedStore) tiedCall] in
  let post := metrics (logRender tiedStore tiedCall) in
  let a := {| renderTime := 20; componentName := "Chart"; propsHash := "{}";
              timestamp := 1000; m_sessionId := "perf_1_a";
              memoryUsage := Some 0%N; callStack := Some "at render"%string;
              isSlowRender := true |} in
  let n := newMetric "perf_1_a" tiedCall in
  length pushed = 501 /\
  length (filter isSlowRender pushed) = 151 /\
  nth_error pushed 0 = Some a /\
  isSlowRender a = true /\
  isSlowRender n = false /\
  timestamp n = timestamp a /\
  In n post /\
  ~ In a post.
Proof.
  cbv zeta.
  split; [vm_compute; reflexivity|].
  split; [vm_compute; reflexivity|].
  split; [vm_compute; reflexivity|].
  split; [reflexivity|].
  split; [reflexivity|].
  split; [reflexivity|].
  split.
  - apply (nth_error_In _ 499). vm_compute. reflexivity.
  - intros Hin.
    assert (Hall : forallb (fun m => match memoryUsage m with
                                     | Some u => negb (N.eqb u 0)
                                     | None => true
                                     end)
                     (metrics (logRender tiedStore tiedCall)) = true)
      by (vm_compute; reflexivity).
    rewrite forallb_forall in Hall. specialize (Hall _ Hin).
    discriminate Hall.
Qed.

(** ** Grouping by component *)

Lemma Forall2_weaken {A B : Type} (R1 R2 : A -> B -> Prop)
    (xs : list A) (ys : list B) :
  (forall x y, In x xs -> R1 x y -> R2 x y) ->
  Forall2 R1 xs ys -> Forall2 R2 xs ys.
Proof.
  intros H F. induction F as [|x y xs ys Hxy F IH]; constructor.
  - apply H; [now left|exact Hxy].
  - apply IH. intros a b Ha. apply H. now right.
Qed.

Lemma subjects_In (ms : list PerformanceMetrics) (s : string) :
  In s (subjects ms) <-> exists m, In m ms /\ componentName m = s.
Proof.
  induction ms as [|x r IH]; simpl.
  - split; [contradiction|]. intros [m [[] _]].
  - rewrite filter_In, IH. split.
    + intros [E|[[m [Hm Hs]] _]].
      * exists x. auto.
      * exists m. auto.
    + intros [m [[->|Hm] Hs]]; [now left|].
      destruct (String.eqb_spec s (componentName x)) as [E|N].
      * now left.
      * right. split; [exists m; auto|reflexivity].
Qed.

Lemma subjects_NoDup (ms : list PerformanceMetrics) : NoDup (subjects ms).
Proof.
  induction ms as [|x r IH]; simpl.
  - constructor.
  - constructor.
    + rewrite filter_In. intros [_ H].
      rewrite String.eqb_refl in H. discriminate.
    + apply NoDup_filter, IH.
Qed.

Lemma existsb_name (name : string) (l : list string) :
  existsb (String.eqb name) l = true <-> In name l.
Proof.
  rewrite existsb_exists. split.
  - intros [x [Hx E]]. apply String.eqb_eq in E. now subst.
  - intros H. exists name. split; [exact H|apply String.eqb_refl].
Qed.

Lemma subjects_snoc (ms : list PerformanceMetrics) (m : PerformanceMetrics) :
  subjects (ms ++ [m]) =
    if existsb (String.eqb (componentName m)) (subjects ms)
    then subjects ms
    else subjects ms ++ [componentName m].
Proof.
  induction ms as [|x r IH]; [reflexivity|].
  cbn [app subjects existsb]. rewrite IH.
  destruct (String.eqb_spec (componentName m) (componentName x)) as [E|N].
  - cbn [orb]. f_equal.
    destruct (existsb (String.eqb (componentName m)) (subjects r));
      [reflexivity|].
    rewrite filter_app. cbn [filter]. rewrite E, String.eqb_refl.
    cbn [negb]. now rewrite app_nil_r.
  - cbn [orb].
    assert (Hsame :
      existsb (String.eqb (componentName m))
        (filter (fun s => negb (String.eqb s (componentName x))) (subjects r))
      = existsb (String.eqb (componentName m)) (subjects r)).
    { apply eq_true_iff_eq. rewrite !existsb_name, filter_In.
      split; [tauto|]. intros H. split; [exact H|].
      apply negb_true_iff, String.eqb_neq, N. }
    rewrite Hsame.
    destruct (existsb (String.eqb (componentName m)) (subjects r));
      [reflexivity|].
    rewrite filter_app. cbn [filter].
    apply String.eqb_neq in N. rewrite N. reflexivity.
Qed.

Lemma group_snoc (ms : list PerformanceMetrics) (m : PerformanceMetrics)
    (s : string) :
  group (ms ++ [m]) s =
    group ms s ++ (if String.eqb (componentName m) s then [m] else []).
Proof.
  unfold group. rewrite filter_app. reflexivity.
Qed.

Lemma group_unknown (ms : list PerformanceMetrics) (s : string) :
  ~ In s (subjects ms) -> group ms s = [].
Proof.
  intros H. unfold group.
  destruct (filter (fun m => String.eqb (componentName m) s) ms) as [|m r] eqn:E;
    [reflexivity|].
  exfalso. apply H, subjects_In. exists m.
  assert (Hm : In m (m :: r)) by now left.
  rewrite <- E in Hm. apply filter_In in Hm. destruct Hm as [Hm Hs].
  split; [exact Hm|]. now apply String.eqb_eq.
Qed.

(** The reducer, by recursion on the own properties. *)
Lemma addRender_nil (m : PerformanceMetrics) :
  addRender [] m =
    if inherited (componentName m) then []
    else [(componentName m,
           {| total := 0 + renderTime m; s_count := 0 + 1 |})].
Proof. reflexivity. Qed.

Lemma addRender_cons (e : string * Stats) (es : StatsObject)
    (m : PerformanceMetrics) :
  addRender (e :: es) m =
    if String.eqb (fst e) (componentName m)
    then (fst e, {| total := total (snd e) + renderTime m;
                    s_count := s_count (snd e) + 1 |}) :: es
    else e :: addRender es m.
Proof.
  destruct e as [k v]. unfold addRender. cbn [getOwn setOwn fst snd].
  destruct (String.eqb k (componentName m)); [reflexivity|].
  destruct (getOwn es (componentName m)); [reflexivity|].
  destruct (inherited (componentName m)); reflexivity.
Qed.

Lemma summarises_other (ms : list PerformanceMetrics) (m : PerformanceMetrics)
    (s : string) (e : string * Stats) :
  s <> componentName m -> summarises ms s e -> summarises (ms ++ [m]) s e.
Proof.
  intros N [H1 [H2 H3]]. unfold summarises. rewrite group_snoc.
  assert (E : String.eqb (componentName m) s = false).
  { apply String.eqb_neq. congruence. }
  rewrite E, app_nil_r. auto.
Qed.

Lemma sum_snoc (xs : list Q) (x : Q) :
  (fold_right Qplus 0 (xs ++ [x]) == fold_right Qplus 0 xs + x)%Q.
Proof.
  induction xs as [|y r IH]; simpl.
  - ring.
  - rewrite IH. ring.
Qed.

Lemma addRender_summarises (ms : list PerformanceMetrics)
    (m : PerformanceMetrics) (keys : list string) (acc : StatsObject) :
  inherited (componentName m) = false ->
  NoDup keys ->
  (~ In (componentName m) keys -> group ms (componentName m) = []) ->
  Forall2 (summarises ms) keys acc ->
  Forall2 (summarises (ms ++ [m]))
    (if existsb (String.eqb (componentName m)) keys
     then keys else keys ++ [componentName m])
    (addRender acc m).
Proof.
  intros Hplain Hnd Hnew H.
  induction H as [|k e ks es Hke Hrest IH].
  - cbn [existsb app]. rewrite addRender_nil, Hplain.
    constructor; [|constructor].
    unfold summarises. cbn [fst snd total s_count].
    rewrite group_snoc, (Hnew (fun x => x)), String.eqb_refl.
    cbn. split; [reflexivity|]. split; [ring|reflexivity].
  - inversion Hnd as [|? ? Hk Hks]; subst.
    rewrite addRender_cons. cbn [existsb].
    destruct Hke as [Hfst [Htot Hcnt]].
    rewrite Hfst.
    destruct (String.eqb_spec k (componentName m)) as [E|N].
    + rewrite String.eqb_sym.
      assert (Hkk : String.eqb k (componentName m) = true)
        by now apply String.eqb_eq.
      rewrite Hkk. cbn [orb].
      constructor.
      * unfold summarises. cbn [fst snd total s_count].
        rewrite group_snoc, String.eqb_sym, Hkk.
        rewrite map_app, length_app. cbn [map length].
        split; [reflexivity|]. split.
        -- rewrite sum_snoc, Htot. reflexivity.
        -- rewrite Hcnt. reflexivity.
      * apply Forall2_weaken with (R1 := summarises ms); [|exact Hrest].
        intros s e' Hs Hse. apply summarises_other; [|exact Hse].
        intros ->. apply Hk. rewrite E. exact Hs.
    + rewrite String.eqb_sym.
      assert (Hkk : String.eqb k (componentName m) = false)
        by now apply String.eqb_neq.
      rewrite Hkk. cbn [orb].
      assert (IH' := IH Hks).
      destruct (existsb (String.eqb (componentName m)) ks) eqn:Ex.
      * constructor.
        -- apply summarises_other; [exact N|]. now repeat split.
        -- apply IH'. intros Hn. exfalso. apply Hn.
           now apply existsb_name.
      * cbn [app]. constructor.
        -- apply summarises_other; [exact N|]. now repeat split.
        -- apply IH'. intros Hn. apply Hnew. intros [E|Hin].
           ++ now apply N.
           ++ now apply Hn.
Qed.






Lemma toHotspot_summary (ms : list PerformanceMetrics) (s : string)
    (e : string * Stats) :
  summarises ms s e -> summary ms s (toHotspot e).
Proof.
  intros [H1 [H2 H3]]. unfold summary, toHotspot, groupAverage, arithmeticMean.
  cbn [component averageTime count]. rewrite length_map, H2, H3. auto with qarith.
Qed.









(** A subject whose name every object inherits has no hotspot: in
    [inheritedStore] the read [acc["constructor"]] finds the inherited
    member, no own property is created, and B is the only hotspot. *)
Lemma hotspot_missing_for_inherited_name :
  subjects (metrics inheritedStore) = ["constructor"; "B"]%string /\
  map component (componentHotspots (getInsights inheritedStore))
  = ["B"]%string.
Proof.
  split; vm_compute; reflexivity.
Qed.

(** ** Rational comparisons *)

Lemma Qgt_bool_true (a b : Q) : Qgt_bool a b = true <-> (b < a)%Q.
Proof.
  unfold Qgt_bool. rewrite negb_true_iff.
  split.
  - intros H. apply Qnot_le_lt. intros Hle.
    apply Qle_bool_iff in Hle. congruence.
  - intros H. destruct (Qle_bool a b) eqn:E; [|reflexivity].
    apply Qle_bool_iff in E. exfalso. exact (Qlt_not_le _ _ H E).
Qed.

Lemma Qgt_bool_false (a b : Q) : Qgt_bool a b = false <-> (a <= b)%Q.
Proof.
  unfold Qgt_bool. rewrite negb_false_iff. apply Qle_bool_iff.
Qed.

(** ** Sums and means *)

Lemma fold_left_sum {A : Type} (f : A -> Q) (l : list A) (a : Q) :
  (fold_left (fun sum m => sum + f m) l a == a + fold_right Qplus 0 (map f l))%Q.
Proof.
  revert a. induction l as [|x r IH]; intros a; simpl.
  - ring.
  - rewrite IH. ring.
Qed.


Lemma sumUsage_sum (rs : list MemoryReading) :
  (sumUsage rs == fold_right Qplus 0 (map usageOf rs))%Q.
Proof.
  unfold sumUsage. rewrite (fold_left_sum usageOf). ring.
Qed.

Lemma usage_sum_nonneg (rs : list MemoryReading) :
  (0 <= fold_right Qplus 0 (map usageOf rs))%Q.
Proof.
  induction rs as [|r rs IH]; simpl.
  - apply Qle_refl.
  - replace 0%Q with (0 + 0)%Q by reflexivity.
    apply Qplus_le_compat; [|exact IH].
    unfold usageOf, ofN, Qle. simpl. lia.
Qed.

Lemma usage_mean_nonneg (rs : list MemoryReading) :
  (0 <= arithmeticMean (map usageOf rs))%Q.
Proof.
  unfold arithmeticMean, Qdiv.
  apply Qmult_le_0_compat.
  - apply usage_sum_nonneg.
  - apply Qinv_le_0_compat. unfold ofNat, Qle. simpl. lia.
Qed.


(** ** The windows of the trend *)

Lemma sliceLast_rev {A : Type} (n : nat) (l : list A) :
  sliceLast n l = rev (firstn n (rev l)).
Proof.
  unfold sliceLast. rewrite firstn_rev, rev_involutive. reflexivity.
Qed.

Lemma sliceBetween_rev {A : Type} (l : list A) :
  10 <= length l -> sliceBetween 10 5 l = rev (firstn 5 (skipn 5 (rev l))).
Proof.
  intros H. unfold sliceBetween.
  rewrite skipn_rev, firstn_rev, rev_involutive.
  rewrite length_firstn, skipn_firstn_comm.
  replace (Nat.min (length l - 5) (length l) - 5) with (length l - 10) by lia.
  reflexivity.
Qed.

(** The trend that the code computes, in terms of the two means. *)
Lemma trendOf_means (h : list MemoryReading) :
  10 <= length h ->
  let recent := arithmeticMean (map usageOf (recentReadings h)) in
  let older := arithmeticMean (map usageOf (precedingReadings h)) in
  trendOf h =
    if Qgt_bool recent (older * (11 # 10)) then increasing
    else if Qgt_bool (older * (9 # 10)) recent then decreasing
    else stable.
Proof.
  intros H recent older. unfold trendOf.
  apply Nat.leb_le in H as Hb. rewrite Hb.
  rewrite sliceLast_rev, (sliceBetween_rev h H).
  fold (recentReadings h). fold (precedingReadings h).
  assert (Hr : (sumUsage (recentReadings h) / ofNat (length (recentReadings h))
                == recent)%Q).
  { unfold recent, arithmeticMean. rewrite length_map, sumUsage_sum. reflexivity. }
  assert (Ho : (sumUsage (precedingReadings h)
                  / ofNat (length (precedingReadings h)) == older)%Q).
  { unfold older, arithmeticMean. rewrite length_map, sumUsage_sum. reflexivity. }
  cbv zeta.
  set (r := (sumUsage (recentReadings h)
             / ofNat (length (recentReadings h)))%Q) in *.
  set (o := (sumUsage (precedingReadings h)
             / ofNat (length (precedingReadings h)))%Q) in *.
  assert (E1 : Qgt_bool r (o * (11 # 10)) = Qgt_bool recent (older * (11 # 10))).
  { unfold Qgt_bool. rewrite Hr, Ho. reflexivity. }
  assert (E2 : Qgt_bool (o * (9 # 10)) r = Qgt_bool (older * (9 # 10)) recent).
  { unfold Qgt_bool. rewrite Hr, Ho. reflexivity. }
  rewrite E1, E2. reflexivity.
Qed.



(** ** Recommendations *)

Lemma pushWhen_rule (cond : bool) (msg : string) (recs : list string) :
  pushWhen cond msg recs = recs ++ rule cond msg.
Proof.
  unfold pushWhen, rule. destruct cond; [reflexivity|].
  now rewrite app_nil_r.
Qed.

(** C7 (recommendation rules).  The recommendations of [getInsights] are
    the contributions of four rules, in this order: the anomaly ratio (more
    slow renders than a tenth of the total), the specific hotspot (the
    hotspots are not empty and the average of the first exceeds 20), the
    memory leak (the trend is [increasing]) and the general performance
    (the average render time exceeds 10).  Each rule contributes its
    message or nothing, whatever the others do; when all four fire the list
    is exactly the four messages in that order. *)
Theorem recommendations_rules (st : Monitor) :
  let ins := getInsights st in
  let anomaly :=
    Qgt_bool (ofNat (length (slowRenders ins)))
             (ofNat (totalRenders ins) * (1 # 10))%Q in
  let hotspot :=
    match componentHotspots ins with
    | top :: _ => Qgt_bool (averageTime top) 20%Q
    | [] => false
    end in
  let target :=
    match componentHotspots ins with
    | top :: _ => component top
    | [] => EmptyString
    end in
  let leak := Trend_eqb (memoryTrend ins) increasing in
  let general := Qgt_bool (averageRenderTime ins) 10%Q in
  recommendations ins =
    rule anomaly memoMessage ++ rule hotspot (focusMessage target)
    ++ rule leak leakMessage ++ rule general overallMessage
  /\ (anomaly = true -> hotspot = true -> leak = true -> general = true ->
      recommendations ins =
        [memoMessage; focusMessage target; leakMessage; overallMessage]).
Proof.
  intros ins anomaly hotspot target leak general.
  assert (E : recommendations ins =
    rule anomaly memoMessage ++ rule hotspot (focusMessage target)
    ++ rule leak leakMessage ++ rule general overallMessage).
  { unfold anomaly, hotspot, target, leak, general, ins, getInsights.
    cbn [recommendations slowRenders totalRenders componentHotspots
         memoryTrend averageRenderTime].
    unfold recommend.
    destruct (hotspotsOf (metrics st)) as [|top rest];
      rewrite !pushWhen_rule; cbn [app rule]; rewrite <- ?app_assoc;
      reflexivity. }
  split; [exact E|].
  intros H1 H2 H3 H4. rewrite E, H1, H2, H3, H4. reflexivity.
Qed.

(** An instance of C7, on the state of the specification's example: 100
    samples of which 15 are slow, 12 ms on average, an increasing memory
    trend, and X at 25 ms as the first hotspot. *)
Lemma recommendations_rules_witness :
  totalRenders (getInsights busyMonitor) = 100 /\
  length (slowRenders (getInsights busyMonitor)) = 15 /\
  (averageRenderTime (getInsights busyMonitor) == 12)%Q /\
  memoryTrend (getInsights busyMonitor) = increasing /\
  recommendations (getInsights busyMonitor) =
    [memoMessage; "Focus optimization on X component"%string;
     leakMessage; overallMessage].
Proof.
  split; [vm_compute; reflexivity|].
  split; [vm_compute; reflexivity|].
  split; [vm_compute; reflexivity|].
  split; [vm_compute; reflexivity|].
  apply (proj2 (recommendations_rules busyMonitor)); vm_compute; reflexivity.
Defined.

(** ** Clearing *)

(** C9 (clear).  After [clear] the store is empty ([getMetrics] returns
    the empty list and [getInsights] counts 0 renders), the memory history
    is empty and the baseline is unset, so that the next reading becomes the
    baseline; the session id is the one before; and clearing a second time
    changes nothing. *)
Theorem clear_resets (st : Monitor) :
  getMetrics (clear st) = [] /\
  totalRenders (getInsights (clear st)) = 0 /\
  memoryHistory (clear st) = [] /\
  memoryBaseline (clear st) = None /\
  (forall (now : Z) (u : N),
     memoryBaseline (fst (memoryTick (clear st) now u)) = Some u) /\
  sessionId (clear st) = sessionId st /\
  clear (clear st) = clear st.
Proof.
  repeat split.
Qed.

(** ** The memory baseline *)

(** A baseline other than 0 is kept by every later tick. *)
Lemma memoryTick_keeps_baseline (st : Monitor) (now : Z) (u b : N) :
  memoryBaseline st = Some b -> b <> 0%N ->
  memoryBaseline (fst (memoryTick st now u)) = Some b.
Proof.
  intros Hb Hne. unfold memoryTick. cbn [fst memoryBaseline].
  rewrite Hb. cbn [baselineMissing].
  destruct (N.eqb_spec b 0) as [E|_]; [contradiction|reflexivity].
Qed.

Lemma memoryTicks_keep_baseline (ts : list (Z * N)) (st : Monitor) (b : N) :
  memoryBaseline st = Some b -> b <> 0%N ->
  memoryBaseline (memoryTicks st ts) = Some b.
Proof.
  revert st. induction ts as [|[now u] r IH]; intros st Hb Hne.
  - exact Hb.
  - unfold memoryTicks. cbn [fold_left fst snd].
    apply IH; [|exact Hne].
    apply memoryTick_keeps_baseline; assumption.
Qed.

(** The first reading after creation or [clear] becomes the baseline, and
    stays it when it is not 0. *)
Lemma first_reading_is_baseline (st : Monitor) (now : Z) (u : N)
    (ts : list (Z * N)) :
  memoryBaseline st = None -> u <> 0%N ->
  memoryBaseline (memoryTicks st ((now, u) :: ts)) = Some u.
Proof.
  intros Hb Hne. unfold memoryTicks. cbn [fold_left fst snd].
  apply memoryTicks_keep_baseline; [|exact Hne].
  unfold memoryTick. cbn [fst memoryBaseline]. rewrite Hb. reflexivity.
Qed.

(** C10 (baseline set once), at the input on which the code departs from
    it.  A first reading of 0 bytes becomes the baseline, and the next tick,
    with a reading of 100 bytes, replaces it: [!this.memoryBaseline] holds
    for the baseline 0 as it does for [undefined]. *)
Theorem baseline_zero_overwritten :
  let st0 := newMonitor "perf_1_a" in
  let st1 := fst (memoryTick st0 10000 0) in
  let st2 := fst (memoryTick st1 20000 100) in
  memoryBaseline st0 = None /\
  memoryBaseline st1 = Some 0%N /\
  memoryBaseline st2 = Some 100%N.
Proof.
  repeat split.
Qed.

(** ** Reading back a JSON text *)
Section JsonInduction.
Variable P : json -> Prop.
Hypothesis PNull : P JNull.
Hypothesis PBool : forall b, P (JBool b).
Hypothesis PNumber : forall literal, P (JNumber literal).
Hypothesis PString : forall s, P (JString s).
Hypothesis PArray : forall items, Forall P items -> P (JArray items).
Hypothesis PObject :
  forall members, Forall (fun m => P (snd m)) members -> P (JObject members).

Lemma json_induction (j : json) : P j.
Proof.
  revert j. fix IH 1. intros [|b|literal|s|items|members].
  - exact PNull.
  - apply PBool.
  - apply PNumber.
  - apply PString.
  - apply PArray. induction items as [|x r IHr]; constructor.
    + apply IH.
    + exact IHr.
  - apply PObject. induction members as [|[k v] r IHr]; constructor.
    + apply IH.
    + exact IHr.
Qed.
End JsonInduction.

Lemma parseString_escapeChar (c : ascii) (tl : text) :
  parseString (escapeChar c ++ tl) = consChar c (parseString tl).
Proof.
  destruct c as [[] [] [] [] [] [] [] []]; reflexivity.
Qed.

Lemma parseString_escape (s : string) (rest : text) :
  parseString (escape s ++ quoteChar :: rest) = Some (s, rest).
Proof.
  induction s as [|c r IH]; [reflexivity|].
  cbn [escape]. rewrite <- app_assoc, parseString_escapeChar, IH.
  reflexivity.
Qed.

Lemma parseString_quote (s : string) (rest : text) :
  exists t, quote s ++ rest = quoteChar :: t /\ parseString t = Some (s, rest).
Proof.
  exists (escape s ++ quoteChar :: rest). split.
  - unfold quote. cbn [app]. now rewrite <- app_assoc.
  - apply parseString_escape.
Qed.

Lemma skipWhitespace_spaces (n : nat) (t : text) :
  skipWhitespace (spaces n ++ t) = skipWhitespace t.
Proof. induction n as [|n IH]; [reflexivity|exact IH]. Qed.

Lemma skipWhitespace_line (n : nat) (t : text) :
  skipWhitespace (newline :: spaces n ++ t) = skipWhitespace t.
Proof. exact (skipWhitespace_spaces n t). Qed.

Lemma skipWhitespace_start (c : ascii) (t : text) :
  isWhitespace c = false -> skipWhitespace (c :: t) = c :: t.
Proof. intros H. cbn [skipWhitespace]. now rewrite H. Qed.

Lemma skipWhitespace_idem (s : text) :
  skipWhitespace (skipWhitespace s) = skipWhitespace s.
Proof.
  induction s as [|c r IH]; [reflexivity|].
  cbn [skipWhitespace]. destruct (isWhitespace c) eqn:E; [exact IH|].
  cbn [skipWhitespace]. now rewrite E.
Qed.

Lemma parseValue_skip (fuel : nat) (s : text) :
  parseValue fuel (skipWhitespace s) = parseValue fuel s.
Proof.
  destruct fuel; [reflexivity|].
  cbn [parseValue]. now rewrite skipWhitespace_idem.
Qed.

Lemma parseValue_line (fuel n : nat) (t : text) :
  parseValue fuel (newline :: spaces n ++ t) = parseValue fuel t.
Proof.
  rewrite <- parseValue_skip, skipWhitespace_line. apply parseValue_skip.
Qed.


Lemma parseMembers_skip (fuel : nat) (s : text) :
  parseMembers fuel (skipWhitespace s) = parseMembers fuel s.
Proof.
  destruct fuel; [reflexivity|].
  cbn [parseMembers]. now rewrite skipWhitespace_idem.
Qed.

Lemma parseMembers_line (fuel n : nat) (t : text) :
  parseMembers fuel (newline :: spaces n ++ t) = parseMembers fuel t.
Proof.
  rewrite <- parseMembers_skip, skipWhitespace_line. apply parseMembers_skip.
Qed.

Lemma takeNumber_literal (lit rest : text) :
  forallb numberChar lit = true -> stops rest ->
  takeNumber (lit ++ rest) = (lit, rest).
Proof.
  intros Hlit Hrest. induction lit as [|c r IH].
  - destruct rest as [|c r]; [reflexivity|].
    cbn [app takeNumber]. cbn [stops] in Hrest. now rewrite Hrest.
  - cbn [forallb] in Hlit. apply andb_true_iff in Hlit.
    destruct Hlit as [Hc Hr].
    cbn [app takeNumber]. rewrite Hc, (IH Hr). reflexivity.
Qed.

Lemma numberStart_cases (c : ascii) :
  numberStart c = true ->
  isWhitespace c = false /\ Ascii.eqb c quoteChar = false /\
  Ascii.eqb c "[" = false /\ Ascii.eqb c "{" = false /\
  Ascii.eqb c "]" = false /\ Ascii.eqb c "}" = false /\
  numberChar c = true.
Proof.
  destruct c as [[] [] [] [] [] [] [] []]; intros H;
    try discriminate H; repeat split.
Qed.

Lemma printValue_start (ind : nat) (j : json) :
  wellFormed j = true ->
  exists c t, printValue ind j = c :: t /\ valueStart c = true.
Proof.
  intros Hwf. destruct j as [|[]|literal|s|[|x r]|[|[k v] r]];
    try (eexists; eexists; split; [reflexivity|reflexivity]).
  cbn [wellFormed] in Hwf. unfold isNumberLiteral in Hwf.
  cbn [printValue]. destruct (chars literal) as [|c r]; [discriminate|].
  apply andb_true_iff in Hwf. destruct Hwf as [Hc _].
  exists c, r. split; [reflexivity|].
  destruct (numberStart_cases c Hc) as [H1 [_ [_ [_ [H2 [H3 _]]]]]].
  unfold valueStart. now rewrite H1, H2, H3.
Qed.

Lemma valueStart_skip (c : ascii) (t : text) :
  valueStart c = true -> skipWhitespace (c :: t) = c :: t.
Proof.
  unfold valueStart. rewrite !andb_true_iff, !negb_true_iff.
  intros [[H _] _]. now apply skipWhitespace_start.
Qed.

Lemma stops_comma (t : text) : stops (","%char :: t).
Proof. reflexivity. Qed.

Lemma stops_newline (t : text) : stops (newline :: t).
Proof. reflexivity. Qed.

Lemma parseItems_layout (k k0 : nat) (closing : text) (xs : list json) :
  Forall readsBack xs -> forallb wellFormed xs = true ->
  forall (x : json) (fuel : nat),
    readsBack x -> wellFormed x = true ->
    sizeItems (x :: xs) < fuel ->
    parseItems fuel
      (newline :: spaces k ++ printValue k x
       ++ concat (map (separated k) (map (printValue k) xs))
       ++ newline :: spaces k0 ++ "]"%char :: closing)
    = Some (x :: xs, closing).
Proof.
  induction 1 as [|y r Hy Hr IH]; intros Hwf x fuel Hx Hwx Hfuel.
  - destruct fuel as [|f]; [inversion Hfuel|].
    cbn [sizeItems fold_right] in Hfuel.
    cbn [map concat app parseItems].
    rewrite parseValue_line, (Hx Hwx f k _ ltac:(lia) (stops_newline _)).
    rewrite skipWhitespace_line. reflexivity.
  - destruct fuel as [|f]; [inversion Hfuel|].
    cbn [forallb] in Hwf. apply andb_true_iff in Hwf.
    destruct Hwf as [Hwy Hwr].
    cbn [sizeItems fold_right] in Hfuel. fold (sizeItems r) in Hfuel.
    cbn [map concat parseItems]. unfold separated at 1.
    rewrite parseValue_line. cbn [app]. rewrite <- !app_assoc.
    rewrite (Hx Hwx f k _ ltac:(lia) (stops_comma _)).
    rewrite (skipWhitespace_start ","%char _ eq_refl).
    rewrite (IH Hwr y f Hy Hwy).
    + reflexivity.
    + cbn [sizeItems fold_right]. fold (sizeItems r). lia.
Qed.

Lemma parseValue_space (fuel : nat) (t : text) :
  parseValue fuel (" "%char :: t) = parseValue fuel t.
Proof.
  rewrite <- parseValue_skip.
  change (skipWhitespace (" "%char :: t)) with (skipWhitespace t).
  apply parseValue_skip.
Qed.

Lemma parseMembers_step (f : nat) (key : string) (t : text) :
  parseMembers (S f) (quote key ++ ":"%char :: " "%char :: t) =
    match parseValue f t with
    | Some (v, r3) =>
        match skipWhitespace r3 with
        | ","%char :: r4 =>
            match parseMembers f r4 with
            | Some (ms, rest) => Some ((key, v) :: ms, rest)
            | None => None
            end
        | "}"%char :: rest => Some ([(key, v)], rest)
        | _ => None
        end
    | None => None
    end.
Proof.
  destruct (parseString_quote key (":"%char :: " "%char :: t)) as [b [E Hb]].
  cbn [parseMembers]. rewrite E.
  rewrite (skipWhitespace_start quoteChar _ eq_refl).
  change (Ascii.eqb quoteChar quoteChar) with true. cbv iota.
  rewrite Hb.
  rewrite (skipWhitespace_start ":"%char _ eq_refl).
  rewrite parseValue_space. reflexivity.
Qed.

Lemma parseMembers_layout (k k0 : nat) (closing : text)
    (ms : list (string * json)) :
  Forall (fun m => readsBack (snd m)) ms ->
  forallb (fun m => match m with (_, v) => wellFormed v end) ms = true ->
  forall (m : string * json) (fuel : nat),
    readsBack (snd m) -> wellFormed (snd m) = true ->
    sizeMembers (m :: ms) < fuel ->
    parseMembers fuel
      (newline :: spaces k ++ printMember (printedMember k m)
       ++ concat (map (fun m' => separated k (printMember m'))
                    (map (printedMember k) ms))
       ++ newline :: spaces k0 ++ "}"%char :: closing)
    = Some (m :: ms, closing).
Proof.
  induction 1 as [|[key' v'] r Hy Hr IH]; intros Hwf [key v] fuel Hx Hwx Hfuel.
  - destruct fuel as [|f]; [inversion Hfuel|].
    cbn [sizeMembers fold_right] in Hfuel. cbn [snd] in Hx, Hwx.
    cbn [map concat app]. rewrite parseMembers_line.
    unfold printMember, printedMember. cbn [fst snd].
    rewrite <- !app_assoc. cbn [app]. rewrite parseMembers_step.
    rewrite (Hx Hwx f k _ ltac:(lia) (stops_newline _)).
    rewrite skipWhitespace_line. reflexivity.
  - destruct fuel as [|f]; [inversion Hfuel|].
    cbn [forallb] in Hwf. apply andb_true_iff in Hwf.
    destruct Hwf as [Hwy Hwr].
    cbn [sizeMembers fold_right] in Hfuel. fold (sizeMembers r) in Hfuel.
    cbn [snd] in Hx, Hwx, Hy.
    cbn [map concat]. unfold separated at 1. rewrite parseMembers_line.
    unfold printMember at 1. unfold printedMember at 1. cbn [fst snd].
    rewrite <- !app_assoc. cbn [app]. rewrite parseMembers_step.
    rewrite <- !app_assoc.
    rewrite (Hx Hwx f k _ ltac:(lia) (stops_comma _)).
    rewrite (skipWhitespace_start ","%char _ eq_refl).
    rewrite (IH Hwr (key', v') f Hy Hwy).
    + reflexivity.
    + cbn [sizeMembers fold_right]. fold (sizeMembers r). lia.
Qed.

Ltac flatten := repeat first [rewrite <- app_assoc | progress cbn [app]].

Lemma parseValue_printValue (j : json) : readsBack j.
Proof.
  induction j as [|b|literal|s|items IH|members IH] using json_induction;
    intros Hwf fuel ind rest Hfuel Hrest;
    (destruct fuel as [|f]; [inversion Hfuel|]).
  - reflexivity.
  - destruct b; reflexivity.
  - cbn [wellFormed] in Hwf. unfold isNumberLiteral in Hwf.
    cbn [printValue].
    assert (Hlit : string_of_list_ascii (chars literal) = literal)
      by apply string_of_list_ascii_of_string.
    destruct (chars literal) as [|c r]; [discriminate|].
    apply andb_true_iff in Hwf. destruct Hwf as [Hc Hr].
    destruct (numberStart_cases c Hc) as [H1 [H2 [H3 [H4 [_ [_ H5]]]]]].
    cbn [parseValue app]. rewrite (skipWhitespace_start c _ H1).
    rewrite H2, H3, H4, Hc.
    cbn [takeNumber]. rewrite H5, (takeNumber_literal r rest Hr Hrest).
    now rewrite Hlit.
  - destruct (parseString_quote s rest) as [b [E Hb]].
    cbn [parseValue printValue]. rewrite E.
    rewrite (skipWhitespace_start quoteChar _ eq_refl).
    change (Ascii.eqb quoteChar quoteChar) with true. cbv iota.
    now rewrite Hb.
  - destruct items as [|x r]; [reflexivity|].
    inversion IH as [|? ? Hx Hr]; subst.
    cbn [wellFormed forallb] in Hwf. apply andb_true_iff in Hwf.
    destruct Hwf as [Hwx Hwr].
    cbn [jsonSize] in Hfuel. fold (sizeItems (x :: r)) in Hfuel.
    destruct (printValue_start (ind + 2) x Hwx) as [c [t [Ec Hc]]].
    cbn [printValue map printArray]. cbn [app parseValue].
    rewrite (skipWhitespace_start "["%char _ eq_refl).
    change (Ascii.eqb "[" quoteChar) with false.
    change (Ascii.eqb "[" "[") with true. cbv iota.
    flatten.
    rewrite (parseItems_layout (ind + 2) ind rest r Hr Hwr x f Hx Hwx
               ltac:(lia)).
    rewrite skipWhitespace_line, Ec. cbn [app].
    rewrite (valueStart_skip c _ Hc).
    unfold valueStart in Hc. rewrite !andb_true_iff, !negb_true_iff in Hc.
    destruct Hc as [[_ Hc] _].
    destruct c as [[] [] [] [] [] [] [] []]; try reflexivity; discriminate Hc.
  - destruct members as [|[key v] r]; [reflexivity|].
    inversion IH as [|? ? Hx Hr]; subst.
    cbn [wellFormed forallb] in Hwf. apply andb_true_iff in Hwf.
    destruct Hwf as [Hwx Hwr].
    cbn [jsonSize] in Hfuel. fold (sizeMembers ((key, v) :: r)) in Hfuel.
    cbn [printValue map printObject]. cbn [app parseValue].
    rewrite (skipWhitespace_start "{"%char _ eq_refl).
    change (Ascii.eqb "{" quoteChar) with false.
    change (Ascii.eqb "{" "[") with false.
    change (Ascii.eqb "{" "{") with true. cbv iota.
    flatten.
    fold (printedMember (ind + 2) (key, v)).
    change (map (fun m => match m with (k, v0) => (k, printValue (ind + 2) v0) end) r)
      with (map (printedMember (ind + 2)) r).
    rewrite (parseMembers_layout (ind + 2) ind rest r Hr Hwr (key, v) f Hx Hwx
               ltac:(lia)).
    rewrite skipWhitespace_line.
    unfold printMember, printedMember, quote. cbn [fst app].
    rewrite (skipWhitespace_start quoteChar _ eq_refl). reflexivity.
Qed.

Lemma sizeItems_fits (k : nat) (items : list json) :
  Forall fitsText items -> forallb wellFormed items = true ->
  sizeItems items
  <= length (concat (map (separated k) (map (printValue k) items))).
Proof.
  induction 1 as [|x r Hx _ IH]; intros Hwf; [apply Nat.le_refl|].
  cbn [forallb] in Hwf. apply andb_true_iff in Hwf. destruct Hwf as [Hwx Hwr].
  cbn [sizeItems fold_right map concat]. fold (sizeItems r).
  rewrite length_app. unfold separated at 1. cbn [length].
  rewrite length_app. specialize (IH Hwr). specialize (Hx Hwx k). lia.
Qed.

Lemma sizeMembers_fits (k : nat) (members : list (string * json)) :
  Forall (fun m => fitsText (snd m)) members ->
  forallb (fun m => match m with (_, v) => wellFormed v end) members = true ->
  sizeMembers members
  <= length (concat (map (fun m' => separated k (printMember m'))
                       (map (printedMember k) members))).
Proof.
  induction 1 as [|[key v] r Hx _ IH]; intros Hwf; [apply Nat.le_refl|].
  cbn [forallb] in Hwf. apply andb_true_iff in Hwf. destruct Hwf as [Hwx Hwr].
  cbn [sizeMembers fold_right map concat]. fold (sizeMembers r).
  rewrite length_app. unfold separated at 1. cbn [length].
  rewrite length_app. unfold printMember at 1, printedMember at 1.
  cbn [fst snd]. rewrite length_app. cbn [length].
  cbn [printedMember snd].
  specialize (IH Hwr). cbn [snd] in Hx. specialize (Hx Hwx k). lia.
Qed.

Lemma size_fits (j : json) : fitsText j.
Proof.
  induction j as [|b|literal|s|items IH|members IH] using json_induction;
    intros Hwf ind.
  - cbn. lia.
  - destruct b; cbn; lia.
  - cbn [wellFormed] in Hwf. unfold isNumberLiteral in Hwf.
    cbn [printValue jsonSize].
    destruct (chars literal); [discriminate|]. cbn [length]. lia.
  - cbn [printValue jsonSize]. unfold quote. cbn [length]. lia.
  - destruct items as [|x r]; [cbn; lia|].
    inversion IH as [|? ? Hx Hr]; subst.
    cbn [wellFormed forallb] in Hwf. apply andb_true_iff in Hwf.
    destruct Hwf as [Hwx Hwr].
    cbn [jsonSize fold_right]. fold (sizeItems r).
    cbn [printValue map printArray length].
    rewrite !length_app.
    assert (H1 := sizeItems_fits (ind + 2) r Hr Hwr).
    specialize (Hx Hwx (ind + 2)). cbn [length]. lia.
  - destruct members as [|[key v] r]; [cbn; lia|].
    inversion IH as [|? ? Hx Hr]; subst.
    cbn [wellFormed forallb] in Hwf. apply andb_true_iff in Hwf.
    destruct Hwf as [Hwx Hwr].
    cbn [jsonSize fold_right]. fold (sizeMembers r).
    cbn [printValue map printObject length].
    change (map (fun m => match m with (k, v0) => (k, printValue (ind + 2) v0) end) r)
      with (map (printedMember (ind + 2)) r).
    rewrite !length_app.
    assert (H1 := sizeMembers_fits (ind + 2) r Hr Hwr).
    cbn [snd] in Hx. specialize (Hx Hwx (ind + 2)).
    unfold printMember at 1. cbn [fst snd]. rewrite length_app.
    cbn [length]. lia.
Qed.

(** Reading back the text of a document gives the document. *)
Lemma parse_stringify (j : json) :
  wellFormed j = true -> JSON_parse (JSON_stringify j) = Some j.
Proof.
  intros Hwf. unfold JSON_parse, JSON_stringify, chars.
  rewrite list_ascii_of_string_of_list_ascii.
  assert (H := parseValue_printValue j Hwf
                 (length (printValue 0 j)) 0 [] (size_fits j Hwf 0) I).
  rewrite app_nil_r in H. rewrite H. reflexivity.
Qed.

(** ** The exporter *)

Lemma digit_isDigit (d : N) :
  (d < 10)%N -> isDigit (ascii_of_N (48 + d)) = true.
Proof.
  intros H.
  assert (E : (d = 0 \/ d = 1 \/ d = 2 \/ d = 3 \/ d = 4 \/ d = 5 \/ d = 6
               \/ d = 7 \/ d = 8 \/ d = 9)%N) by lia.
  repeat (destruct E as [->|E]; [reflexivity|]). now subst.
Qed.

Lemma digitsOf_digits (fuel : nat) (n : N) (acc : text) :
  forallb isDigit acc = true -> forallb isDigit (digitsOf fuel n acc) = true.
Proof.
  revert n acc. induction fuel as [|f IH]; intros n acc Hacc; [exact Hacc|].
  cbn [digitsOf].
  assert (Hd : forallb isDigit (ascii_of_N (48 + n mod 10) :: acc) = true).
  { cbn [forallb]. rewrite Hacc, digit_isDigit; [reflexivity|].
    apply N.mod_lt. discriminate. }
  destruct (n / 10 =? 0)%N; [exact Hd|]. now apply IH.
Qed.

Lemma digitsOf_cons (fuel : nat) (n : N) (acc : text) :
  exists c r, digitsOf (S fuel) n acc = c :: r.
Proof.
  revert n acc. induction fuel as [|f IH]; intros n acc.
  - cbn [digitsOf]. destruct (n / 10 =? 0)%N; eauto.
  - change (digitsOf (S (S f)) n acc)
      with (let acc' := ascii_of_N (48 + n mod 10) :: acc in
            if (n / 10 =? 0)%N then acc' else digitsOf (S f) (n / 10) acc').
    cbv zeta. destruct (n / 10 =? 0)%N; [eauto|apply IH].
Qed.

Lemma isDigit_numberChar (l : text) :
  forallb isDigit l = true -> forallb numberChar l = true.
Proof.
  induction l as [|c r IH]; [reflexivity|].
  cbn [forallb]. rewrite !andb_true_iff. intros [Hc Hr].
  split; [|now apply IH]. unfold numberChar. now rewrite Hc.
Qed.

Lemma integerLiteral_literal (q : Q) : isNumberLiteral (integerLiteral q) = true.
Proof.
  unfold integerLiteral, isNumberLiteral, chars.
  rewrite list_ascii_of_string_of_list_ascii.
  set (z := Qfloor q).
  set (fuel := N.to_nat (N.log2 (Z.abs_N z))).
  assert (Hd := digitsOf_digits (S fuel) (Z.abs_N z) [] eq_refl).
  destruct (digitsOf_cons fuel (Z.abs_N z) []) as [c [r E]].
  rewrite E in *. cbn [forallb] in Hd. apply andb_true_iff in Hd.
  destruct Hd as [Hc Hr].
  destruct (z <? 0)%Z.
  - cbn [forallb]. change (numberStart "-") with true.
    rewrite (isDigit_numberChar r Hr).
    unfold numberChar. now rewrite Hc.
  - unfold numberStart. rewrite Hc. now apply isDigit_numberChar.
Qed.

Lemma forallb_map_true {A B : Type} (p : B -> bool) (f : A -> B)
    (l : list A) :
  (forall x, p (f x) = true) -> forallb p (map f l) = true.
Proof.
  intros H. induction l as [|x r IH]; [reflexivity|].
  cbn [map forallb]. now rewrite H, IH.
Qed.

Section ExportFacts.
Variable numberToString : Q -> string.
Hypothesis numberToString_literal :
  forall q, isNumberLiteral (numberToString q) = true.

Lemma metricJSON_wellFormed (m : PerformanceMetrics) :
  wellFormed (metricJSON numberToString m) = true.
Proof.
  unfold metricJSON, jsonNumber.
  destruct (memoryUsage m), (callStack m); cbn;
    now rewrite !numberToString_literal.
Qed.

Lemma readingJSON_wellFormed (r : MemoryReading) :
  wellFormed (readingJSON numberToString r) = true.
Proof.
  unfold readingJSON, jsonNumber. cbn. now rewrite !numberToString_literal.
Qed.

Lemma hotspotJSON_wellFormed (h : Hotspot) :
  wellFormed (hotspotJSON numberToString h) = true.
Proof.
  unfold hotspotJSON, jsonNumber. cbn. now rewrite !numberToString_literal.
Qed.

Lemma exportData_wellFormed (st : Monitor) (exportTime : string) :
  wellFormed (exportData numberToString st exportTime) = true.
Proof.
  unfold exportData, insightsJSON, jsonNumber.
  cbn [wellFormed forallb].
  rewrite !numberToString_literal.
  rewrite !(forallb_map_true wellFormed (metricJSON numberToString))
    by apply metricJSON_wellFormed.
  rewrite (forallb_map_true wellFormed (readingJSON numberToString))
    by apply readingJSON_wellFormed.
  rewrite (forallb_map_true wellFormed (hotspotJSON numberToString))
    by apply hotspotJSON_wellFormed.
  rewrite (forallb_map_true wellFormed JString) by reflexivity.
  reflexivity.
Qed.

(** C8 (export round trip).  For every state of the monitor, the text of
    [exportMetrics] reads back as an object with the five properties
    [metrics] (the samples of the specification), [insights],
    [memoryHistory], [sessionId] and [exportTime], in this order; its
    [metrics] is an array with as many items as the store holds samples,
    and its [sessionId] is the session id of the monitor. *)
Theorem export_round_trip (st : Monitor) (exportTime : string) :
  exists doc : json,
    JSON_parse (exportMetrics numberToString st exportTime) = Some doc /\
    propertyNames doc
    = ["metrics"; "insights"; "memoryHistory"; "sessionId"; "exportTime"]%string /\
    (exists samples : list json,
       property "metrics" doc = Some (JArray samples) /\
       length samples = length (metrics st)) /\
    property "sessionId" doc = Some (JString (sessionId st)).
Proof.
  exists (exportData numberToString st exportTime).
  split; [|split; [|split]].
  - apply parse_stringify, exportData_wellFormed.
  - reflexivity.
  - exists (map (metricJSON numberToString) (metrics st)).
    split; [reflexivity|apply length_map].
  - reflexivity.
Qed.
End ExportFacts.

(** An instance of C8: the export of [rankedStore], with the numbers
    printed by [integerLiteral]. *)
Lemma export_round_trip_witness :
  exists doc : json,
    JSON_parse (exportMetrics integerLiteral rankedStore "2026-01-01T00:00:00.000Z")
    = Some doc /\
    propertyNames doc
    = ["metrics"; "insights"; "memoryHistory"; "sessionId"; "exportTime"]%string /\
    (exists samples : list json,
       property "metrics" doc = Some (JArray samples) /\
       length samples = length (metrics rankedStore)) /\
    property "sessionId" doc = Some (JString (sessionId rankedStore)).
Proof.
  apply (export_round_trip integerLiteral integerLiteral_literal).
Defined.

(** * Further properties *)

(** ** Slices *)

Lemma sliceLast_sliceLast {A : Type} (m n : nat) (l : list A) :
  m <= n -> sliceLast m (sliceLast n l) = sliceLast m l.
Proof.
  intros H. unfold sliceLast. rewrite length_skipn, skipn_skipn.
  f_equal. lia.
Qed.

Lemma sliceLast_short {A : Type} (n : nat) (l : list A) :
  length l <= n -> sliceLast n l = l.
Proof.
  intros H. unfold sliceLast.
  replace (length l - n) with 0 by lia. reflexivity.
Qed.

Lemma sliceLast_app {A : Type} (n : nat) (a r : list A) :
  sliceLast n (a ++ r) = sliceLast (n - length r) a ++ sliceLast n r.
Proof.
  unfold sliceLast. rewrite length_app, skipn_app.
  destruct (Nat.le_gt_cases (length r) n) as [H|H].
  - f_equal; f_equal; lia.
  - rewrite !(skipn_all2 a) by lia. f_equal. f_equal. lia.
Qed.

Lemma sliceLast_absorb {A : Type} (n : nat) (l r : list A) :
  sliceLast n (sliceLast n l ++ r) = sliceLast n (l ++ r).
Proof.
  rewrite !sliceLast_app, sliceLast_sliceLast by lia. reflexivity.
Qed.

(** ** The order of the store and its cleanup *)

Lemma insertSorted_snoc {A : Type} (cmp : A -> A -> Q) (a x : A) (l : list A) :
  Qle_bool (cmp a x) 0 = true ->
  insertSorted cmp a (l ++ [x]) = insertSorted cmp a l ++ [x].
Proof.
  intros H. induction l as [|y r IH]; cbn [app insertSorted].
  - now rewrite H.
  - destruct (Qle_bool (cmp a y) 0); [reflexivity|]. now rewrite IH.
Qed.

Lemma sort_snoc {A : Type} (cmp : A -> A -> Q) (x : A) (l : list A) :
  Forall (fun a => Qle_bool (cmp a x) 0 = true) l ->
  sort cmp (l ++ [x]) = sort cmp l ++ [x].
Proof.
  induction 1 as [|a r Ha _ IH]; [reflexivity|].
  cbn [app sort]. rewrite IH. now apply insertSorted_snoc.
Qed.

Lemma sliceLast_snoc {A : Type} (n : nat) (x : A) (l : list A) :
  0 < n -> sliceLast n (l ++ [x]) = sliceLast (n - 1) l ++ [x].
Proof.
  intros Hn. unfold sliceLast. rewrite length_app. cbn [length].
  replace (length l + 1 - n) with (length l - (n - 1)) by lia.
  rewrite skipn_app.
  replace (length l - (n - 1) - length l) with 0 by lia.
  reflexivity.
Qed.

Lemma sorted_snoc (l : list PerformanceMetrics) (x : PerformanceMetrics) :
  StronglySorted olderOrEqual l ->
  Forall (fun m => olderOrEqual m x) l ->
  StronglySorted olderOrEqual (l ++ [x]).
Proof.
  induction 1 as [|y r Hr IH Hy]; intros Hx; cbn [app].
  - constructor; constructor.
  - inversion Hx as [|? ? Hyx Hrx]; subst.
    constructor; [now apply IH|].
    apply Forall_app. split; [exact Hy|]. now constructor.
Qed.

Lemma sorted_skipn {A : Type} (le : A -> A -> Prop) (k : nat) (l : list A) :
  StronglySorted le l -> StronglySorted le (skipn k l).
Proof.
  revert l. induction k as [|k IH]; intros l H; [exact H|].
  destruct l as [|x r]; [constructor|].
  cbn [skipn]. apply IH. now inversion H.
Qed.

Lemma cleanup_sorted (ms : list PerformanceMetrics) :
  StronglySorted olderOrEqual (cleanup ms).
Proof.
  unfold cleanup, sliceLast. apply sorted_skipn, sort_byTimestamp_sorted.
Qed.

(** X1 (order of the store).  When the store is in the order of its
    timestamps and no stored sample is more recent than the clock, it is
    still in the order of its timestamps after [logRender]. *)
Theorem logRender_keeps_order (st : Monitor) (c : Call) :
  StronglySorted olderOrEqual (metrics st) ->
  notAfter (c_now c) (metrics st) ->
  StronglySorted olderOrEqual (metrics (logRender st c)).
Proof.
  intros Hs Hn. unfold logRender.
  destruct (maxMetrics <? length (metrics st ++ [newMetric (sessionId st) c]));
    cbn [metrics setMetrics].
  - apply cleanup_sorted.
  - apply sorted_snoc; [exact Hs|exact Hn].
Qed.

Lemma cleanup_snoc (ms : list PerformanceMetrics) (x : PerformanceMetrics) :
  notAfter (timestamp x) ms ->
  exists front, cleanup (ms ++ [x]) = front ++ [x].
Proof.
  intros Hn. unfold cleanup.
  rewrite (sliceLast_snoc recentCount x ms) by (vm_compute; lia).
  rewrite app_assoc.
  rewrite sort_snoc.
  - rewrite (sliceLast_snoc maxMetrics) by (vm_compute; lia). eauto.
  - apply Forall_forall. intros a Ha.
    assert (Hin : In a (ms ++ [x])).
    { apply in_app_or in Ha. destruct Ha as [Ha|Ha].
      - apply filter_In in Ha. tauto.
      - apply in_or_app. left.
        unfold sliceLast in Ha.
        rewrite <- (firstn_skipn (length ms - (recentCount - 1)) ms).
        apply in_or_app. now right. }
    apply Qle_bool_iff. unfold byTimestamp, Qle. cbn.
    apply in_app_or in Hin. destruct Hin as [Hin|[<-|[]]]; [|lia].
    unfold notAfter in Hn. rewrite Forall_forall in Hn.
    specialize (Hn a Hin). lia.
Qed.

(** X2 (the sample just logged).  When no stored sample is more recent
    than the clock, the sample that [logRender] builds is the last one of
    the store after the call, cleanup or not. *)
Theorem logRender_newest_last (st : Monitor) (c : Call) :
  notAfter (c_now c) (metrics st) ->
  exists front,
    metrics (logRender st c) = front ++ [newMetric (sessionId st) c].
Proof.
  intros Hn. unfold logRender.
  destruct (maxMetrics <? length (metrics st ++ [newMetric (sessionId st) c]));
    cbn [metrics setMetrics].
  - now apply cleanup_snoc.
  - eauto.
Qed.

Lemma sliceLast_In {A : Type} (n : nat) (l : list A) (x : A) :
  In x (sliceLast n l) -> In x l.
Proof.
  unfold sliceLast. intros H.
  rewrite <- (firstn_skipn (length l - n) l).
  apply in_or_app. now right.
Qed.

(** X3 (what the cleanup keeps).  Every sample of the store after
    [logRender] is a sample of the store before it or the new one; when the
    cleanup ran, it is a slow render or one of the [recentCount] = 350 last
    samples of the array. *)
Theorem logRender_keeps_only (st : Monitor) (c : Call)
    (x : PerformanceMetrics) :
  let pushed := metrics st ++ [newMetric (sessionId st) c] in
  In x (metrics (logRender st c)) ->
  In x pushed /\
  (maxMetrics < length pushed ->
   isSlowRender x = true \/ In x (sliceLast recentCount pushed)).
Proof.
  intros pushed. unfold logRender. fold pushed.
  destruct (maxMetrics <? length pushed) eqn:E; cbn [metrics setMetrics].
  - intros H. unfold cleanup in H. apply sliceLast_In, sort_In in H.
    apply in_app_or in H. destruct H as [H|H].
    + apply filter_In in H. destruct H as [H1 H2]. split; [exact H1|]. auto.
    + split; [now apply sliceLast_In in H|]. auto.
  - intros H. split; [exact H|]. apply Nat.ltb_ge in E. lia.
Qed.

Lemma filter_length_perm {A : Type} (p : A -> bool) (l1 l2 : list A) :
  Permutation l1 l2 -> length (filter p l1) = length (filter p l2).
Proof.
  induction 1 as [|x l1 l2 _ IH|x y l|l1 l2 l3 _ IH1 _ IH2]; cbn [filter].
  - reflexivity.
  - destruct (p x); cbn [length]; now rewrite IH.
  - destruct (p x), (p y); reflexivity.
  - now rewrite IH1.
Qed.

Lemma filter_length_skipn {A : Type} (p : A -> bool) (k : nat) (l : list A) :
  length (filter p (skipn k l)) <= length (filter p l).
Proof.
  rewrite <- (firstn_skipn k l) at 2. rewrite filter_app, length_app. lia.
Qed.

Lemma filter_length_filter {A : Type} (p q : A -> bool) (l : list A) :
  length (filter p (filter q l)) <= length (filter p l).
Proof.
  induction l as [|x r IH]; [apply Nat.le_refl|].
  cbn [filter]. destruct (q x), (p x) eqn:E; cbn [filter length];
    rewrite ?E; cbn [length]; lia.
Qed.

Lemma sorted_since (t : Z) (l : list PerformanceMetrics) :
  StronglySorted olderOrEqual l ->
  l = filter (fun m => negb (since t m)) l ++ filter (since t) l.
Proof.
  induction 1 as [|x r Hr IH Hx]; [reflexivity|].
  cbn [filter]. destruct (since t x) eqn:E; cbn [negb app].
  - assert (Hall : Forall (fun m => since t m = true) r).
    { apply Forall_impl with (2 := Hx). intros m Hm.
      unfold since, olderOrEqual in *. apply Z.leb_le in E. apply Z.leb_le. lia. }
    assert (E1 : filter (fun m => negb (since t m)) r = []).
    { clear -Hall. induction Hall as [|y s Hy _ IH]; [reflexivity|].
      cbn [filter]. now rewrite Hy. }
    assert (E2 : filter (since t) r = r).
    { clear -Hall. induction Hall as [|y s Hy _ IH]; [reflexivity|].
      cbn [filter]. now rewrite Hy, IH. }
    now rewrite E1, E2.
  - now rewrite <- IH.
Qed.

Lemma cleanup_keeps_since (ms : list PerformanceMetrics)
    (p : PerformanceMetrics) :
  In p (filter isSlowRender ms ++ sliceLast recentCount ms) ->
  2 * length (filter (since (timestamp p)) ms) <= maxMetrics ->
  In p (cleanup ms).
Proof.
  intros Hin Hcount. unfold cleanup.
  set (kept := filter isSlowRender ms ++ sliceLast recentCount ms) in *.
  set (sorted := sort byTimestamp kept).
  assert (Hsplit := sorted_since (timestamp p) sorted
                      (sort_byTimestamp_sorted kept)).
  set (front := filter (fun m => negb (since (timestamp p) m)) sorted) in *.
  set (back := filter (since (timestamp p)) sorted) in *.
  assert (Hback : length back <= maxMetrics).
  { unfold back, sorted.
    rewrite <- (filter_length_perm _ _ _ (sort_perm byTimestamp kept)).
    unfold kept. rewrite filter_app, length_app.
    assert (H1 := filter_length_filter (since (timestamp p)) isSlowRender ms).
    assert (H2 := filter_length_skipn (since (timestamp p))
                    (length ms - recentCount) ms).
    unfold sliceLast. lia. }
  assert (Hp : In p back).
  { apply filter_In. split.
    - now apply sort_In.
    - unfold since. apply Z.leb_refl. }
  unfold sliceLast. rewrite Hsplit at 2. rewrite skipn_app.
  apply in_or_app. right.
  replace (length sorted - maxMetrics - length front) with 0.
  - exact Hp.
  - rewrite Hsplit at 1. rewrite length_app. lia.
Qed.

(** X4 (what the cleanup never drops).  A slow render, or one of the 350
    last samples, is kept by [logRender] whenever at most 250 samples of
    the array are at least as recent as it: the copies of the samples that
    are both slow and recent take at most twice that many places. *)
Theorem logRender_keeps_recent (st : Monitor) (c : Call)
    (p : PerformanceMetrics) :
  let pushed := metrics st ++ [newMetric (sessionId st) c] in
  In p pushed ->
  isSlowRender p = true \/ In p (sliceLast recentCount pushed) ->
  length (filter (since (timestamp p)) pushed) <= 250 ->
  In p (metrics (logRender st c)).
Proof.
  intros pushed Hin Hkind Hcount. unfold logRender. fold pushed.
  destruct (maxMetrics <? length pushed); cbn [metrics setMetrics];
    [|exact Hin].
  apply cleanup_keeps_since.
  - apply in_or_app. destruct Hkind as [H|H]; [left|now right].
    apply filter_In. now split.
  - change maxMetrics with 500. lia.
Qed.

Lemma sort_sorted_same (l : list PerformanceMetrics) :
  StronglySorted olderOrEqual l -> sort byTimestamp l = l.
Proof.
  induction 1 as [|x r Hr IH Hx]; [reflexivity|].
  cbn [sort]. rewrite IH. destruct r as [|y s]; [reflexivity|].
  cbn [insertSorted].
  assert (E : Qle_bool (byTimestamp x y) 0 = true).
  { apply Qle_bool_iff. unfold byTimestamp, Qle. cbn.
    inversion Hx as [|? ? Hxy _]; subst. unfold olderOrEqual in Hxy. lia. }
  now rewrite E.
Qed.

(** X5 (cleanup without slow renders).  When the array is in the order of
    its timestamps and holds no slow render, a cleanup leaves exactly its
    350 last samples. *)
Theorem cleanup_without_slow_renders (st : Monitor) (c : Call) :
  let pushed := metrics st ++ [newMetric (sessionId st) c] in
  StronglySorted olderOrEqual pushed ->
  filter isSlowRender pushed = [] ->
  maxMetrics < length pushed ->
  metrics (logRender st c) = sliceLast 350 pushed.
Proof.
  intros pushed Hs Hslow Hfull.
  rewrite (logRender_cleanup st c Hfull). fold pushed.
  unfold cleanup. rewrite Hslow. cbn [app].
  rewrite sort_sorted_same.
  - rewrite sliceLast_short; [reflexivity|].
    unfold sliceLast. rewrite length_skipn. change maxMetrics with 500.
    change recentCount with 350. lia.
  - unfold sliceLast. now apply sorted_skipn.
Qed.

(** ** The life of a monitor *)

Lemma newMetric_labelled (sid : string) (c : Call) :
  labelled sid (newMetric sid c).
Proof.
  unfold labelled, newMetric. cbn.
  split; [reflexivity|]. split; [|reflexivity].
  destruct (Qgt_bool (c_renderTime c) slowRenderThreshold);
    split; intros H; congruence.
Qed.

Lemma perform_sessionId (st : Monitor) (op : Operation) :
  sessionId (perform st op) = sessionId st.
Proof.
  destruct op as [c|now u| |now]; cbn; try reflexivity.
  unfold logRender. now destruct (_ <? _).
Qed.

Lemma perform_labelled (sid : string) (st : Monitor) (op : Operation) :
  sessionId st = sid ->
  Forall (labelled sid) (metrics st) ->
  Forall (labelled sid) (metrics (perform st op)).
Proof.
  intros Hsid H. rewrite Forall_forall in *.
  destruct op as [c|now u| |now]; cbn [perform].
  - intros x Hx.
    assert (Hin : In x (metrics st ++ [newMetric (sessionId st) c])).
    { unfold logRender in Hx.
      destruct (_ <? _); cbn [metrics setMetrics] in Hx; [|exact Hx].
      unfold cleanup in Hx. apply sliceLast_In, sort_In in Hx.
      apply in_app_or in Hx. destruct Hx as [Hx|Hx].
      - apply filter_In in Hx. tauto.
      - now apply sliceLast_In in Hx. }
    apply in_app_or in Hin. destruct Hin as [Hin|[<-|[]]].
    + now apply H.
    + rewrite Hsid. apply newMetric_labelled.
  - exact H.
  - intros x [].
  - intros x Hx. cbn [optimizeMemory metrics] in Hx.
    apply sliceLast_In, filter_In in Hx. now apply H.
Qed.

(** X6 (labels of the samples).  In every state that a new monitor reaches
    by logging, ticking, clearing and optimizing, the session id is the one
    of the constructor and every stored sample is labelled as [logRender]
    labels it: slow exactly when its render time exceeds 16, with a call
    stack exactly when it is slow, and with the session id of the monitor. *)
Theorem samples_labelled (sid : string) (ops : list Operation) :
  let st := run ops (newMonitor sid) in
  sessionId st = sid /\ Forall (labelled sid) (metrics st).
Proof.
  cbv zeta. unfold run.
  assert (G : forall st0, sessionId st0 = sid ->
            Forall (labelled sid) (metrics st0) ->
            sessionId (fold_left perform ops st0) = sid /\
            Forall (labelled sid) (metrics (fold_left perform ops st0))).
  { induction ops as [|op r IH]; intros st0 H1 H2; [now split|].
    cbn [fold_left]. apply IH.
    - now rewrite perform_sessionId.
    - now apply perform_labelled. }
  apply G; [reflexivity|constructor].
Qed.

Lemma perform_bounded (st : Monitor) (op : Operation) :
  length (metrics st) <= 500 /\ length (memoryHistory st) <= 50 ->
  length (metrics (perform st op)) <= 500 /\
  length (memoryHistory (perform st op)) <= 50.
Proof.
  intros [H1 H2]. destruct op as [c|now u| |now]; cbn [perform].
  - split; [apply logRender_bounded|].
    unfold logRender. now destruct (_ <? _).
  - cbn [memoryTick fst metrics memoryHistory]. split; [exact H1|].
    destruct (50 <? length _) eqn:E.
    + apply sliceLast_le.
    + now apply Nat.ltb_ge in E.
  - cbn. lia.
  - cbn [optimizeMemory metrics memoryHistory]. split.
    + etransitivity; [apply sliceLast_le|lia].
    + etransitivity; [apply sliceLast_le|lia].
Qed.

(** X7 (both buffers are bounded).  In every state that a new monitor
    reaches by logging, ticking, clearing and optimizing, the store holds at
    most 500 samples and the memory history at most 50 readings. *)
Theorem buffers_bounded (sid : string) (ops : list Operation) :
  let st := run ops (newMonitor sid) in
  length (metrics st) <= 500 /\ length (memoryHistory st) <= 50.
Proof.
  cbv zeta. unfold run.
  assert (G : forall st0,
            length (metrics st0) <= 500 /\ length (memoryHistory st0) <= 50 ->
            length (metrics (fold_left perform ops st0)) <= 500 /\
            length (memoryHistory (fold_left perform ops st0)) <= 50).
  { induction ops as [|op r IH]; intros st0 H; [exact H|].
    cbn [fold_left]. apply IH. now apply perform_bounded. }
  apply G. cbn. lia.
Qed.

(** ** The memory sampler *)


Lemma memoryTick_history (st : Monitor) (now : Z) (u : N) :
  memoryHistory (fst (memoryTick st now u))
  = sliceLast 50 (memoryHistory st ++ [readingOf (now, u)]).
Proof.
  cbn [memoryTick fst memoryHistory readingOf snd].
  destruct (50 <? length _) eqn:E; [reflexivity|].
  apply Nat.ltb_ge in E. now rewrite sliceLast_short.
Qed.


Lemma memoryTicks_history (ts : list (Z * N)) (st : Monitor) :
  length (memoryHistory st) <= 50 ->
  memoryHistory (memoryTicks st ts)
  = sliceLast 50 (memoryHistory st ++ map readingOf ts).
Proof.
  revert st. induction ts as [|[now u] r IH]; intros st H.
  - cbn. rewrite app_nil_r. now rewrite sliceLast_short.
  - unfold memoryTicks. cbn [fold_left fst snd map].
    fold (memoryTicks (fst (memoryTick st now u)) r).
    rewrite IH.
    + rewrite memoryTick_history, sliceLast_absorb, <- app_assoc.
      reflexivity.
    + rewrite memoryTick_history. apply sliceLast_le.
Qed.

(** X8 (the history is a sliding window).  After any sequence of ticks on
    a cleared monitor the memory history is the last 50 readings of the
    sequence, in their order. *)
Theorem memory_history_window (st : Monitor) (ts : list (Z * N)) :
  memoryHistory (memoryTicks (clear st) ts) = sliceLast 50 (map readingOf ts).
Proof.
  rewrite memoryTicks_history; [reflexivity|]. cbn. lia.
Qed.

(** X9 (the spike warning).  A tick warns of a memory spike exactly when a
    baseline other than 0 was set before the tick and the reading exceeds
    twice that baseline; the tick that sets the baseline never warns. *)
Theorem spike_warning (st : Monitor) (now : Z) (u : N) :
  snd (memoryTick st now u) = true <->
  exists b : N, memoryBaseline st = Some b /\ b <> 0%N /\ (2 * b < u)%N.
Proof.
  cbn [memoryTick snd]. destruct (memoryBaseline st) as [b|]; cbn [baselineMissing].
  - destruct (N.eqb_spec b 0) as [E|E].
    + split.
      * intros H. apply N.ltb_lt in H. lia.
      * intros [b' [H1 [H2 _]]]. congruence.
    + split.
      * intros H. apply N.ltb_lt in H. exists b. repeat split; [exact E|lia].
      * intros [b' [H1 [_ H3]]]. injection H1 as <-. apply N.ltb_lt. lia.
  - split.
    + intros H. apply N.ltb_lt in H. lia.
    + intros [b [H _]]. discriminate.
Qed.

(** X10 (the store and the sampler are independent).  Logging a render
    and then ticking gives the same monitor and the same warning as ticking
    and then logging the render. *)
Theorem logRender_memoryTick_commute (st : Monitor) (c : Call) (now : Z)
    (u : N) :
  memoryTick (logRender st c) now u
  = (logRender (fst (memoryTick st now u)) c, snd (memoryTick st now u)).
Proof.
  unfold logRender. cbn [memoryTick fst snd metrics sessionId].
  destruct (maxMetrics <? _); reflexivity.
Qed.

(** ** The trend and the size of the history *)

Lemma sliceBetween_last {A : Type} (l : list A) :
  10 <= length l -> sliceBetween 10 5 l = firstn 5 (sliceLast 10 l).
Proof.
  intros H. unfold sliceBetween, sliceLast. f_equal. lia.
Qed.

Lemma trendOf_sliceLast (n : nat) (h : list MemoryReading) :
  10 <= n -> trendOf (sliceLast n h) = trendOf h.
Proof.
  intros Hn. destruct (Nat.le_gt_cases (length h) n) as [Hs|Hl].
  - now rewrite sliceLast_short.
  - unfold trendOf.
    assert (Hlen : length (sliceLast n h) = n).
    { unfold sliceLast. rewrite length_skipn. lia. }
    rewrite Hlen.
    destruct (Nat.leb_spec 10 (length h)) as [H10|H10]; [|lia].
    apply Nat.leb_le in Hn as Hb. rewrite Hb.
    rewrite sliceLast_sliceLast by lia.
    rewrite !sliceBetween_last by lia.
    rewrite sliceLast_sliceLast by lia. reflexivity.
Qed.

(** X11 (optimizing keeps the trend).  [optimizeMemory] cuts the history
    to 20 readings and leaves the memory trend of [getInsights] as it was. *)
Theorem optimizeMemory_keeps_trend (st : Monitor) (now : Z) :
  memoryTrend (getInsights (optimizeMemory st now))
  = memoryTrend (getInsights st).
Proof.
  cbn [getInsights memoryTrend optimizeMemory memoryHistory].
  apply trendOf_sliceLast. lia.
Qed.

(** X12 (the cap of the history does not show in the trend).  After any
    sequence of ticks on a cleared monitor, the trend of [getInsights] is
    the trend of the whole sequence of readings. *)
Theorem trend_ignores_cap (st : Monitor) (ts : list (Z * N)) :
  memoryTrend (getInsights (memoryTicks (clear st) ts))
  = trendOf (map readingOf ts).
Proof.
  cbn [getInsights memoryTrend]. rewrite memory_history_window.
  apply trendOf_sliceLast. lia.
Qed.

Lemma sum_le_pairwise (l1 l2 : list MemoryReading) :
  length l1 = length l2 ->
  (forall x y, In x l1 -> In y l2 -> (usage x <= usage y)%N) ->
  (fold_right Qplus 0 (map usageOf l1) <= fold_right Qplus 0 (map usageOf l2))%Q.
Proof.
  revert l2. induction l1 as [|x r IH]; intros [|y s] Hlen H;
    try discriminate Hlen.
  - apply Qle_refl.
  - cbn [map fold_right]. apply Qplus_le_compat.
    + unfold usageOf, ofN, Qle. cbn.
      assert (Hxy := H x y (or_introl eq_refl) (or_introl eq_refl)). lia.
    + apply IH; [now injection Hlen|].
      intros a b Ha Hb. apply H; now right.
Qed.

Lemma mean_le_pairwise (l1 l2 : list MemoryReading) :
  length l1 = length l2 ->
  (forall x y, In x l1 -> In y l2 -> (usage x <= usage y)%N) ->
  (arithmeticMean (map usageOf l1) <= arithmeticMean (map usageOf l2))%Q.
Proof.
  intros Hlen H. unfold arithmeticMean, Qdiv. rewrite !length_map, Hlen.
  apply Qmult_le_compat_r.
  - now apply sum_le_pairwise.
  - apply Qinv_le_0_compat. unfold ofNat, Qle. cbn. lia.
Qed.

Lemma scale_up (o : Q) : (0 <= o -> o <= o * (11 # 10))%Q.
Proof.
  intros H. rewrite (Qmult_comm o).
  apply Qle_trans with (1 * o)%Q; [rewrite Qmult_1_l; apply Qle_refl|].
  apply Qmult_le_compat_r; [|exact H]. unfold Qle. cbn. lia.
Qed.

Lemma scale_down (o : Q) : (0 <= o -> o * (9 # 10) <= o)%Q.
Proof.
  intros H. rewrite (Qmult_comm o).
  apply Qle_trans with (1 * o)%Q; [|rewrite Qmult_1_l; apply Qle_refl].
  apply Qmult_le_compat_r; [|exact H]. unfold Qle. cbn. lia.
Qed.

Lemma windows_split (h : list MemoryReading) :
  10 <= length h ->
  skipn (length h - 10) h = precedingReadings h ++ recentReadings h.
Proof.
  intros H. unfold precedingReadings, recentReadings.
  rewrite <- (sliceBetween_rev h H), <- sliceLast_rev.
  unfold sliceBetween, sliceLast.
  replace (length h - 5 - (length h - 10)) with 5 by lia.
  replace (length h - 5) with (5 + (length h - 10)) by lia.
  rewrite <- skipn_skipn. symmetry. apply firstn_skipn.
Qed.

Lemma windows_length (h : list MemoryReading) :
  10 <= length h ->
  length (precedingReadings h) = 5 /\ length (recentReadings h) = 5.
Proof.
  intros H. unfold precedingReadings, recentReadings.
  rewrite !length_rev, !length_firstn, length_skipn, !length_rev. lia.
Qed.

(** X13 (the trend follows the readings).  When the usage never grows
    along the history the trend is not [increasing]; when it never shrinks
    the trend is not [decreasing]. *)
Theorem trend_follows_direction (st : Monitor) :
  (StronglySorted neverGrows (memoryHistory st) ->
   memoryTrend (getInsights st) <> increasing) /\
  (StronglySorted neverShrinks (memoryHistory st) ->
   memoryTrend (getInsights st) <> decreasing).
Proof.
  cbn [getInsights memoryTrend]. set (h := memoryHistory st).
  destruct (Nat.le_gt_cases 10 (length h)) as [H|H].
  2:{ unfold trendOf. apply Nat.leb_gt in H. rewrite H.
      split; intros _; discriminate. }
  rewrite (trendOf_means h H).
  destruct (windows_length h H) as [L1 L2].
  set (recent := arithmeticMean (map usageOf (recentReadings h))).
  set (older := arithmeticMean (map usageOf (precedingReadings h))).
  assert (Hr : (0 <= recent)%Q) by apply usage_mean_nonneg.
  assert (Ho : (0 <= older)%Q) by apply usage_mean_nonneg.
  split; intros Hs.
  - assert (Hle : (recent <= older)%Q).
    { apply mean_le_pairwise; [congruence|].
      intros x y Hx Hy.
      apply (sorted_app neverGrows (precedingReadings h) (recentReadings h));
        [|exact Hy|exact Hx].
      rewrite <- windows_split by exact H. now apply sorted_skipn. }
    assert (E : Qgt_bool recent (older * (11 # 10)) = false).
    { apply Qgt_bool_false. apply Qle_trans with (1 := Hle).
      now apply scale_up. }
    rewrite E. cbv iota.
    destruct (Qgt_bool (older * (9 # 10)) recent); intros D; discriminate D.
  - assert (Hle : (older <= recent)%Q).
    { apply mean_le_pairwise; [congruence|].
      intros x y Hx Hy.
      apply (sorted_app neverShrinks (precedingReadings h) (recentReadings h));
        [|exact Hx|exact Hy].
      rewrite <- windows_split by exact H. now apply sorted_skipn. }
    assert (E : Qgt_bool (older * (9 # 10)) recent = false).
    { apply Qgt_bool_false. apply Qle_trans with (2 := Hle).
      now apply scale_down. }
    rewrite E. cbv iota.
    destruct (Qgt_bool recent (older * (11 # 10))); intros D; discriminate D.
Qed.

(** ** The groups of every store *)

Lemma addRender_absent (acc : StatsObject) (m : PerformanceMetrics) :
  Forall (fun e => fst e <> componentName m) acc ->
  inherited (componentName m) = true ->
  addRender acc m = acc.
Proof.
  intros H Hinh. induction H as [|e es He _ IH].
  - rewrite addRender_nil. now rewrite Hinh.
  - rewrite addRender_cons. apply String.eqb_neq in He. rewrite He.
    now rewrite IH.
Qed.

Lemma ownSubjects_snoc (ms : list PerformanceMetrics) (m : PerformanceMetrics) :
  ownSubjects (ms ++ [m]) =
    if inherited (componentName m) then ownSubjects ms
    else if existsb (String.eqb (componentName m)) (ownSubjects ms)
         then ownSubjects ms
         else ownSubjects ms ++ [componentName m].
Proof.
  unfold ownSubjects. rewrite subjects_snoc.
  destruct (inherited (componentName m)) eqn:Hinh.
  - destruct (existsb _ (subjects ms)); [reflexivity|].
    rewrite filter_app. cbn [filter]. rewrite Hinh. cbn [negb].
    now rewrite app_nil_r.
  - assert (E : existsb (String.eqb (componentName m))
                  (filter (fun s => negb (inherited s)) (subjects ms))
                = existsb (String.eqb (componentName m)) (subjects ms)).
    { apply eq_true_iff_eq. rewrite !existsb_name, filter_In.
      rewrite Hinh. cbn [negb]. tauto. }
    rewrite E. destruct (existsb _ (subjects ms)); [reflexivity|].
    rewrite filter_app. cbn [filter]. rewrite Hinh. reflexivity.
Qed.

Lemma componentStats_groups (ms : list PerformanceMetrics) :
  Forall2 (summarises ms) (ownSubjects ms) (componentStats ms).
Proof.
  induction ms as [|m ms IH] using rev_ind; [constructor|].
  unfold componentStats. rewrite fold_left_app. cbn [fold_left].
  fold (componentStats ms). rewrite ownSubjects_snoc.
  destruct (inherited (componentName m)) eqn:Hinh.
  - assert (Hkeys : Forall (fun s => s <> componentName m) (ownSubjects ms)).
    { apply Forall_forall. intros s Hs E. subst s.
      apply filter_In in Hs. destruct Hs as [_ Hs].
      rewrite Hinh in Hs. discriminate. }
    rewrite addRender_absent; [|
      clear -IH Hkeys; induction IH as [|s e ks es [Hfst _] _ IHr];
        [constructor|]; inversion Hkeys; subst;
        constructor; [congruence|now apply IHr] | exact Hinh].
    apply Forall2_weaken with (R1 := summarises ms); [|exact IH].
    intros s e Hs Hse. apply summarises_other; [|exact Hse].
    rewrite Forall_forall in Hkeys. now apply Hkeys.
  - apply addRender_summarises.
    + exact Hinh.
    + apply NoDup_filter, subjects_NoDup.
    + intros Hn. apply group_unknown. intros Hs. apply Hn.
      apply filter_In. split; [exact Hs|]. now rewrite Hinh.
    + exact IH.
Qed.

Lemma entries_perm (acc : StatsObject) : Permutation (entries acc) acc.
Proof.
  unfold entries.
  apply perm_trans with
    (filter (fun e => isArrayIndex (fst e)) acc
     ++ filter (fun e => negb (isArrayIndex (fst e))) acc).
  - apply Permutation_app_tail, Permutation_sym, sort_perm.
  - induction acc as [|e r IH]; [apply perm_nil|].
    cbn [filter]. destruct (isArrayIndex (fst e)); cbn [negb app].
    + now apply perm_skip.
    + apply Permutation_sym, Permutation_cons_app, Permutation_sym, IH.
Qed.

Lemma mean_bound (c : Q) (xs : list Q) :
  xs <> [] -> Forall (fun x => (x <= c)%Q) xs -> (arithmeticMean xs <= c)%Q.
Proof.
  intros Hne H. unfold arithmeticMean.
  apply Qle_shift_div_r.
  - destruct xs; [congruence|]. unfold ofNat, Qlt. cbn. lia.
  - clear Hne. induction H as [|x r Hx _ IH].
    + cbn. unfold Qle. cbn. lia.
    + cbn [fold_right length].
      assert (E : (c * ofNat (S (length r)) == c + c * ofNat (length r))%Q).
      { unfold ofNat. rewrite Nat2Z.inj_succ. unfold Z.succ.
        rewrite inject_Z_plus. ring. }
      rewrite E. now apply Qplus_le_compat.
Qed.

Lemma above_or_all (c : Q) (xs : list Q) :
  (exists x, In x xs /\ (c < x)%Q) \/ Forall (fun x => (x <= c)%Q) xs.
Proof.
  induction xs as [|x r IH]; [right; constructor|].
  destruct (Qlt_le_dec c x) as [L|G].
  - left. exists x. split; [now left|exact L].
  - destruct IH as [[z [Hz Lz]]|F].
    + left. exists z. split; [now right|exact Lz].
    + right. now constructor.
Qed.

Lemma above_mean (c : Q) (xs : list Q) :
  xs <> [] -> (c < arithmeticMean xs)%Q -> exists x, In x xs /\ (c < x)%Q.
Proof.
  intros Hne H. destruct (above_or_all c xs) as [D|D]; [exact D|].
  exfalso. apply (Qlt_not_le _ _ H). now apply mean_bound.
Qed.

Lemma Forall2_In_r {A B : Type} (R : A -> B -> Prop) (xs : list A)
    (ys : list B) (y : B) :
  Forall2 R xs ys -> In y ys -> exists x, In x xs /\ R x y.
Proof.
  induction 1 as [|a b r s Hab _ IH]; intros Hin; [contradiction|].
  destruct Hin as [<-|Hin].
  - exists a. split; [now left|exact Hab].
  - destruct (IH Hin) as [x [Hx Hr]]. exists x. split; [now right|exact Hr].
Qed.

Lemma firstn_In {A : Type} (n : nat) (l : list A) (x : A) :
  In x (firstn n l) -> In x l.
Proof.
  intros H. rewrite <- (firstn_skipn n l). apply in_or_app. now left.
Qed.


Lemma group_known (ms : list PerformanceMetrics) (s : string) :
  In s (subjects ms) -> group ms s <> [].
Proof.
  intros H E. apply subjects_In in H. destruct H as [m [Hm Hs]].
  assert (Hin : In m (group ms s)).
  { apply filter_In. split; [exact Hm|]. now apply String.eqb_eq. }
  rewrite E in Hin. contradiction.
Qed.

(** Every hotspot is the summary of a subject that got a group. *)
Lemma hotspot_of_subject (ms : list PerformanceMetrics) (h : Hotspot) :
  In h (hotspotsOf ms) ->
  In (component h) (ownSubjects ms) /\ summary ms (component h) h.
Proof.
  intros H. unfold hotspotsOf in H.
  apply firstn_In, sort_In, in_map_iff in H.
  destruct H as [e [<- He]].
  apply (Permutation_in _ (entries_perm _)) in He.
  destruct (Forall2_In_r _ _ _ _ (componentStats_groups ms) He)
    as [s [Hs Hse]].
  assert (E : component (toHotspot e) = s) by apply Hse.
  rewrite E. split; [exact Hs|]. now apply toHotspot_summary.
Qed.



(** X15 (the badge of the dashboard).  In a store whose samples are
    labelled as [logRender] labels them, a hotspot that the dashboard shows
    with the destructive badge (an average above 16) is a component with a
    slow render among [slowRenders]. *)
Theorem destructive_badge_has_slow_render (sid : string) (st : Monitor)
    (h : Hotspot) :
  Forall (labelled sid) (metrics st) ->
  In h (componentHotspots (getInsights st)) ->
  hotspotBadge h = badgeDestructive ->
  exists m : PerformanceMetrics,
    In m (slowRenders (getInsights st)) /\ componentName m = component h.
Proof.
  intros Hlab Hh Hbadge.
  cbn [getInsights componentHotspots slowRenders] in *.
  destruct (hotspot_of_subject _ h Hh) as [Hs [_ [Havg _]]].
  apply filter_In in Hs. destruct Hs as [Hs _].
  unfold hotspotBadge in Hbadge.
  destruct (Qgt_bool (averageTime h) 16) eqn:E; [|discriminate].
  apply Qgt_bool_true in E. rewrite Havg in E. unfold groupAverage in E.
  assert (Hne : map renderTime (group (metrics st) (component h)) <> []).
  { intros D. apply map_eq_nil in D. now apply (group_known _ _ Hs). }
  destruct (above_mean 16 _ Hne E) as [x [Hx Lx]].
  apply in_map_iff in Hx. destruct Hx as [m [<- Hm]].
  apply filter_In in Hm. destruct Hm as [Hm Hname].
  exists m. split; [|now apply String.eqb_eq].
  apply filter_In. split; [exact Hm|].
  rewrite Forall_forall in Hlab. destruct (Hlab m Hm) as [Hslow _].
  rewrite Hslow. now apply Qgt_bool_true.
Qed.

(** X16 (no slow render, no optimization advice).  In a store whose
    samples are labelled as [logRender] labels them and that holds no slow
    render, the recommendations are at most the memory-leak message and the
    general message: neither [React.memo] nor a component to focus on is
    recommended. *)
Theorem no_slow_render_recommendations (sid : string) (st : Monitor) :
  Forall (labelled sid) (metrics st) ->
  slowRenders (getInsights st) = [] ->
  recommendations (getInsights st)
  = rule (Trend_eqb (memoryTrend (getInsights st)) increasing) leakMessage
    ++ rule (Qgt_bool (averageRenderTime (getInsights st)) 10) overallMessage.
Proof.
  intros Hlab Hslow.
  cbn [getInsights slowRenders recommendations memoryTrend averageRenderTime]
    in *.
  rewrite Hslow. unfold recommend. cbn [length].
  assert (E1 : Qgt_bool (ofNat 0)
                 (ofNat (length (metrics st)) * (1 # 10)) = false).
  { apply Qgt_bool_false. apply Qmult_le_0_compat.
    - unfold ofNat, Qle. cbn. lia.
    - unfold Qle. cbn. lia. }
  rewrite E1. rewrite !pushWhen_rule. cbn [rule app].
  assert (Hfast : forall m, In m (metrics st) -> (renderTime m <= 16)%Q).
  { intros m Hm. rewrite Forall_forall in Hlab.
    destruct (Hlab m Hm) as [Hs _].
    destruct (isSlowRender m) eqn:Em.
    - assert (Hin : In m (filter isSlowRender (metrics st)))
        by (apply filter_In; now split).
      rewrite Hslow in Hin. contradiction.
    - symmetry in Hs. now apply Qgt_bool_false in Hs. }
  destruct (hotspotsOf (metrics st)) as [|top rest] eqn:Eh; [reflexivity|].
  assert (Htop : In top (hotspotsOf (metrics st))) by (rewrite Eh; now left).
  destruct (hotspot_of_subject _ top Htop) as [Hs [_ [Havg _]]].
  apply filter_In in Hs. destruct Hs as [Hs _].
  assert (E2 : Qgt_bool (averageTime top) 20 = false).
  { apply Qgt_bool_false. rewrite Havg. unfold groupAverage.
    apply Qle_trans with 16%Q; [|unfold Qle; cbn; lia].
    apply mean_bound.
    - intros D. apply map_eq_nil in D. now apply (group_known _ _ Hs).
    - apply Forall_forall. intros x Hx. apply in_map_iff in Hx.
      destruct Hx as [m [<- Hm]]. apply filter_In in Hm. now apply Hfast. }
  rewrite pushWhen_rule, E2. reflexivity.
Qed.

(** ** optimizeMemory *)

Lemma filter_all {A : Type} (p : A -> bool) (l : list A) :
  Forall (fun x => p x = true) l -> filter p l = l.
Proof.
  induction 1 as [|x r Hx _ IH]; [reflexivity|].
  cbn [filter]. now rewrite Hx, IH.
Qed.


(** X18 ([optimizeMemory] is idempotent).  Optimizing twice at the same
    time gives the monitor that optimizing once gives. *)
Theorem optimizeMemory_idempotent (st : Monitor) (now : Z) :
  optimizeMemory (optimizeMemory st now) now = optimizeMemory st now.
Proof.
  unfold optimizeMemory. cbn [metrics memoryHistory sessionId memoryBaseline].
  fold (critical now).
  set (kept := sliceLast 200 (filter (critical now) (metrics st))).
  assert (E : filter (critical now) kept = kept).
  { apply filter_all, Forall_forall. intros m Hm.
    unfold kept in Hm. apply sliceLast_In, filter_In in Hm. tauto. }
  rewrite E. unfold kept at 1.
  rewrite !sliceLast_sliceLast by lia. reflexivity.
Qed.

(** ** The call stack *)

Lemma splitLines_cons (s : string) :
  exists line lines, splitLines s = line :: lines.
Proof.
  destruct s as [|c r]; cbn [splitLines]; [eauto|].
  destruct (Ascii.eqb c newline); [eauto|].
  destruct (splitLines r); eauto.
Qed.

Lemma splitLines_clean (s : string) :
  Forall (fun line => newlines line = 0) (splitLines s).
Proof.
  induction s as [|c r IH]; [repeat constructor|].
  cbn [splitLines]. destruct (Ascii.eqb c newline) eqn:E.
  - constructor; [reflexivity|exact IH].
  - destruct (splitLines_cons r) as [line [lines El]]. rewrite El in *.
    inversion IH as [|? ? H1 H2]; subst. constructor; [|exact H2].
    unfold newlines in *. cbn [list_ascii_of_string filter].
    rewrite Ascii.eqb_sym, E. exact H1.
Qed.

Lemma splitLines_joinLines (lines : list string) :
  lines <> [] -> Forall (fun line => newlines line = 0) lines ->
  splitLines (joinLines lines) = lines.
Proof.
  intros Hne H. induction H as [|line rest Hl Hr IH]; [congruence|].
  clear Hne. destruct rest as [|next rest].
  - cbn [joinLines]. clear IH Hr.
    induction line as [|c r IHl]; [reflexivity|].
    unfold newlines in Hl. cbn [list_ascii_of_string filter] in Hl.
    cbn [splitLines]. rewrite Ascii.eqb_sym.
    destruct (Ascii.eqb newline c); [discriminate|].
    now rewrite (IHl Hl).
  - change (joinLines (line :: next :: rest))
      with (line ++ String newline (joinLines (next :: rest)))%string.
    specialize (IH ltac:(discriminate)).
    induction line as [|c r IHl].
    + cbn [append splitLines]. rewrite Ascii.eqb_refl. now rewrite IH.
    + unfold newlines in Hl. cbn [list_ascii_of_string filter] in Hl.
      cbn [append splitLines]. rewrite Ascii.eqb_sym.
      destruct (Ascii.eqb newline c); [discriminate|].
      now rewrite (IHl Hl).
Qed.

Lemma Forall_slice {A : Type} (P : A -> Prop) (a b : nat) (l : list A) :
  Forall P l -> Forall P (slice a b l).
Proof.
  intros H. rewrite Forall_forall in *. intros x Hx. apply H.
  unfold slice in Hx.
  rewrite <- (firstn_skipn a l). apply in_or_app. right.
  rewrite <- (firstn_skipn (b - a) (skipn a l)). apply in_or_app. now left.
Qed.

(** X20 (the call stack of a slow render).  For a stack of at most 4 lines
    [getCallStack] returns the empty string; for a longer one it returns
    the lines 5 to 8 of the stack, so never more than 4 lines. *)
Theorem getCallStack_lines (s : string) :
  (length (splitLines s) <= 4 -> getCallStack (Some s) = EmptyString) /\
  (4 < length (splitLines s) ->
   splitLines (getCallStack (Some s)) = slice 4 8 (splitLines s)) /\
  length (splitLines (getCallStack (Some s))) <= 4.
Proof.
  assert (Hlen : forall l : list string, length (slice 4 8 l) <= 4).
  { intros l. unfold slice. rewrite length_firstn. lia. }
  assert (Hshort : length (splitLines s) <= 4 ->
                   getCallStack (Some s) = EmptyString).
  { intros H. destruct s as [|c r]; [reflexivity|].
    cbn [getCallStack]. unfold slice.
    rewrite skipn_all2 by exact H. reflexivity. }
  assert (Hlong : 4 < length (splitLines s) ->
                  splitLines (getCallStack (Some s)) = slice 4 8 (splitLines s)).
  { intros H. destruct s as [|c r]; [cbn in H; lia|].
    cbn [getCallStack]. apply splitLines_joinLines.
    - unfold slice. intros E. apply (f_equal (@length string)) in E.
      rewrite length_firstn, length_skipn in E. cbn [length] in E. lia.
    - apply Forall_slice, splitLines_clean. }
  split; [exact Hshort|]. split; [exact Hlong|].
  destruct (Nat.le_gt_cases (length (splitLines s)) 4) as [H|H].
  - rewrite (Hshort H). cbn. lia.
  - rewrite (Hlong H). apply Hlen.
Qed.

(** ** The regression warning *)

(** X21 (the regression warning).  When [logRender] warns of a regression
    in development mode, the render took more than 24 ms, the slow-render
    warning is given as well, and the store holds at least 3 samples of the
    component. *)
Theorem regression_is_slow (st : Monitor) (c : Call) :
  snd (snd (logRenderDev st c)) = true ->
  (24 < c_renderTime c)%Q /\
  fst (snd (logRenderDev st c)) = true /\
  3 <= length (getComponentMetrics (logRender st c) (c_componentName c)).
Proof.
  cbn [logRenderDev fst snd]. unfold regressionWarning.
  set (same := filter _ (metrics (logRender st c))).
  destruct (3 <=? length (sliceLast 5 same)) eqn:E; [|discriminate].
  cbv zeta. rewrite andb_true_iff, !Qgt_bool_true.
  set (avg := (sumRenderTime (sliceLast 5 same)
               / ofNat (length (sliceLast 5 same)))%Q).
  intros [H1 H2].
  assert (H24 : (24 < c_renderTime c)%Q).
  { apply Qle_lt_trans with (2 := H2).
    apply Qle_trans with (16 * (3 # 2))%Q; [unfold Qle; cbn; lia|].
    apply Qmult_le_compat_r; [|unfold Qle; cbn; lia].
    now apply Qlt_le_weak. }
  split; [exact H24|]. split.
  - apply Qlt_trans with (2 := H24). unfold slowRenderThreshold, Qlt. cbn. lia.
  - apply Nat.leb_le in E. unfold getComponentMetrics. fold same.
    unfold sliceLast in E. rewrite length_skipn in E. lia.
Qed.

(** ** The rest of the export *)

Section MoreExportFacts.
Variable numberToString : Q -> string.
Hypothesis numberToString_literal :
  forall q, isNumberLiteral (numberToString q) = true.

(** X19 (the rest of the export).  The text of [exportMetrics] reads back
    as an object whose [exportTime] is the time of the export, whose
    [memoryHistory] has as many items as the history has readings, and
    whose [insights] has the six properties of [getInsights], with as many
    [slowRenders] as slow samples, the name of the memory trend and the
    recommendations as they are. *)
Theorem export_reads_back (st : Monitor) (exportTime : string) :
  exists doc insights : json,
    JSON_parse (exportMetrics numberToString st exportTime) = Some doc /\
    property "exportTime" doc = Some (JString exportTime) /\
    (exists readings : list json,
       property "memoryHistory" doc = Some (JArray readings) /\
       length readings = length (memoryHistory st)) /\
    property "insights" doc = Some insights /\
    propertyNames insights
    = ["slowRenders"; "averageRenderTime"; "totalRenders"; "memoryTrend";
       "componentHotspots"; "recommendations"]%string /\
    (exists slow : list json,
       property "slowRenders" insights = Some (JArray slow) /\
       length slow = length (slowRenders (getInsights st))) /\
    property "memoryTrend" insights
    = Some (JString (trendName (memoryTrend (getInsights st)))) /\
    property "recommendations" insights
    = Some (JArray (map JString (recommendations (getInsights st)))).
Proof.
  exists (exportData numberToString st exportTime),
         (insightsJSON numberToString (getInsights st)).
  split; [apply parse_stringify, exportData_wellFormed;
          exact numberToString_literal|].
  split; [reflexivity|]. split.
  { exists (map (readingJSON numberToString) (memoryHistory st)).
    split; [reflexivity|apply length_map]. }
  split; [reflexivity|]. split; [reflexivity|]. split.
  { exists (map (metricJSON numberToString) (slowRenders (getInsights st))).
    split; [reflexivity|apply length_map]. }
  split; reflexivity.
Qed.
End MoreExportFacts.

(** ** Instances of the further properties *)

Lemma logRenders_labelled (sid : string) (cs : list Call) (st : Monitor) :
  sessionId st = sid ->
  Forall (labelled sid) (metrics st) ->
  Forall (labelled sid) (metrics (fold_left logRender cs st)).
Proof.
  revert st. induction cs as [|c r IH]; intros st H1 H2; [exact H2|].
  cbn [fold_left]. apply IH.
  - change (sessionId (perform st (Log c)) = sid).
    now rewrite perform_sessionId.
  - exact (perform_labelled sid st (Log c) H1 H2).
Qed.

Lemma sorted_by_sort (l : list PerformanceMetrics) :
  sort byTimestamp l = l -> StronglySorted olderOrEqual l.
Proof. intros H. rewrite <- H. apply sort_byTimestamp_sorted. Qed.

Lemma notAfter_check (now : Z) (ms : list PerformanceMetrics) :
  forallb (fun m => (timestamp m <=? now)%Z) ms = true -> notAfter now ms.
Proof.
  intros H. apply Forall_forall. intros m Hm.
  rewrite forallb_forall in H. apply Z.leb_le. now apply H.
Qed.

Ltac explicit_list :=
  match goal with
  | |- StronglySorted _ ?l =>
      let l' := eval vm_compute in l in change l with l'
  end.

(** An instance of X1: [mixedStore] followed by [slowCall]. *)
Lemma logRender_keeps_order_witness :
  StronglySorted olderOrEqual (metrics (logRender mixedStore slowCall)).
Proof.
  apply logRender_keeps_order.
  - apply sorted_by_sort. vm_compute. reflexivity.
  - apply notAfter_check. vm_compute. reflexivity.
Defined.

(** An instance of X2: [mixedStore] followed by [slowCall]. *)
Lemma logRender_newest_last_witness :
  exists front,
    metrics (logRender mixedStore slowCall)
    = front ++ [newMetric (sessionId mixedStore) slowCall].
Proof.
  apply logRender_newest_last.
  apply notAfter_check. vm_compute. reflexivity.
Defined.

(** An instance of X3: the new sample of [fullStore] followed by
    [slowCall]. *)
Lemma logRender_keeps_only_witness :
  In (newMetric "perf_1_a" slowCall)
     (metrics fullStore ++ [newMetric (sessionId fullStore) slowCall]).
Proof.
  apply (proj1 (logRender_keeps_only fullStore slowCall
                  (newMetric "perf_1_a" slowCall)
                  ltac:(apply (nth_error_In _ 350); vm_compute; reflexivity))).
Defined.

(** An instance of X4: the new sample of [mixedStore] followed by
    [slowCall]. *)
Lemma logRender_keeps_recent_witness :
  In (newMetric "perf_1_a" slowCall) (metrics (logRender mixedStore slowCall)).
Proof.
  apply (logRender_keeps_recent mixedStore slowCall
           (newMetric "perf_1_a" slowCall)).
  - apply (nth_error_In _ 500). vm_compute. reflexivity.
  - left. reflexivity.
  - vm_compute. lia.
Defined.

(** An instance of X5: [fullStore] followed by [fastCall]. *)
Lemma cleanup_without_slow_renders_witness :
  metrics (logRender fullStore fastCall)
  = sliceLast 350 (metrics fullStore ++ [newMetric (sessionId fullStore) fastCall]).
Proof.
  apply cleanup_without_slow_renders.
  - apply sorted_by_sort. vm_compute. reflexivity.
  - vm_compute. reflexivity.
  - vm_compute. lia.
Defined.

(** Instances of X13: ten readings that go down, ten that go up. *)
Lemma trend_follows_direction_witness :
  memoryTrend (getInsights (sampled (newMonitor "s")
    [200; 200; 200; 200; 200; 100; 100; 100; 100; 100]%N)) <> increasing /\
  memoryTrend (getInsights (sampled (newMonitor "s")
    [100; 100; 100; 100; 100; 200; 200; 200; 200; 200]%N)) <> decreasing.
Proof.
  split.
  - apply (proj1 (trend_follows_direction _)).
    explicit_list. repeat constructor; unfold neverGrows; cbn; lia.
  - apply (proj2 (trend_follows_direction _)).
    explicit_list. repeat constructor; unfold neverShrinks; cbn; lia.
Defined.

(** An instance of X15: the hotspot of A in [rankedStore]. *)
Lemma destructive_badge_has_slow_render_witness :
  exists m : PerformanceMetrics,
    In m (slowRenders (getInsights rankedStore)) /\
    componentName m
    = component {| component := "A"; averageTime := 60 # 2; count := 2 |}.
Proof.
  apply (destructive_badge_has_slow_render "perf_1_a" rankedStore).
  - apply logRenders_labelled; [reflexivity|constructor].
  - apply (nth_error_In _ 0). vm_compute. reflexivity.
  - vm_compute. reflexivity.
Defined.

(** An instance of X16: [calmStore], three renders of 12 ms. *)
Lemma no_slow_render_recommendations_witness :
  recommendations (getInsights calmStore)
  = rule (Trend_eqb (memoryTrend (getInsights calmStore)) increasing)
      leakMessage
    ++ rule (Qgt_bool (averageRenderTime (getInsights calmStore)) 10)
         overallMessage.
Proof.
  apply (no_slow_render_recommendations "perf_1_a" calmStore).
  - apply logRenders_labelled; [reflexivity|constructor].
  - vm_compute. reflexivity.
Defined.


(** An instance of X19: the export of [rankedStore], with the numbers
    printed by [integerLiteral]. *)
Lemma export_reads_back_witness :
  exists doc insights : json,
    JSON_parse (exportMetrics integerLiteral rankedStore "2026-01-01T00:00:00.000Z")
    = Some doc /\
    property "exportTime" doc = Some (JString "2026-01-01T00:00:00.000Z") /\
    (exists readings : list json,
       property "memoryHistory" doc = Some (JArray readings) /\
       length readings = length (memoryHistory rankedStore)) /\
    property "insights" doc = Some insights /\
    propertyNames insights
    = ["slowRenders"; "averageRenderTime"; "totalRenders"; "memoryTrend";
       "componentHotspots"; "recommendations"]%string /\
    (exists slow : list json,
       property "slowRenders" insights = Some (JArray slow) /\
       length slow = length (slowRenders (getInsights rankedStore))) /\
    property "memoryTrend" insights
    = Some (JString (trendName (memoryTrend (getInsights rankedStore)))) /\
    property "recommendations" insights
    = Some (JArray (map JString (recommendations (getInsights rankedStore)))).
Proof.
  apply (export_reads_back integerLiteral integerLiteral_literal).
Defined.

(** An instance of X20: of the six lines of [sixLines], the last two. *)
Lemma getCallStack_lines_witness :
  splitLines (getCallStack (Some sixLines)) = slice 4 8 (splitLines sixLines).
Proof.
  apply (proj1 (proj2 (getCallStack_lines sixLines))).
  vm_compute. lia.
Defined.

(** An instance of X21: a render of 100 ms after two of 20 ms. *)
Lemma regression_is_slow_witness :
  (24 < c_renderTime spikeCall)%Q /\
  fst (snd (logRenderDev steadyStore spikeCall)) = true /\
  3 <= length (getComponentMetrics (logRender steadyStore spikeCall)
                 (c_componentName spikeCall)).
Proof.
  apply (regression_is_slow steadyStore spikeCall).
  vm_compute. reflexivity.
Defined.
